(** * newtab-content-extension: the section bridge and the card poller

    A shallow embedding of the two source files of the repository:

    - the WebExtension API shim [API] (class [API extends ExtensionAPI]),
      which keeps one options object per extension and forwards it to the
      host's [SectionsManager];
    - [nyt-extension/background.js], the sample extension that polls a
      news feed and publishes cards through [browser.newTabSection].

    JavaScript objects used as records are finite maps from property names
    to values; closures handed to the host are defunctionalised; promises
    that are awaited become continuations stored in the state. *)

From stdpp Require Import gmap strings list fin_maps.
From Stdlib Require Import ZArith Lia.

Local Open Scope Z_scope.
Local Open Scope string_scope.
Local Open Scope list_scope.

(** ** JavaScript values *)

Module JS.

(** The values that can sit in a manifest or in a section's options. *)
#[local] Set Warnings "-register-all".
Inductive jsval : Type :=
| JUndefined
| JNull
| JBool (b : bool)
| JNum (n : Z)
| JStr (s : string)
| JArr (items : list jsval)
| JObj (props : list (string * jsval)).

(** ToBoolean: [undefined], [null], [false], [0] and the empty string are
    falsy, every other value (arrays and objects included) is truthy. *)
Definition truthy (v : jsval) : bool :=
  match v with
  | JUndefined | JNull => false
  | JBool b => b
  | JNum n => negb (Z.eqb n 0)
  | JStr s => negb (String.eqb s "")
  | JArr _ | JObj _ => true
  end.

(** Property read [o.k]: a missing property reads as [undefined]. *)
Definition getProp (o : gmap string jsval) (k : string) : jsval :=
  default JUndefined (o !! k).

(** Property write [o.k = v]. *)
Definition setProp (k : string) (v : jsval) (o : gmap string jsval)
  : gmap string jsval := <[k := v]> o.

(** [Object.assign(target, source)]: every own property of [source] is
    written onto [target], whatever its value ([undefined] included). *)
Definition Object_assign (target source : gmap string jsval)
  : gmap string jsval := source ∪ target.

(** [s.startsWith(p)]. *)
Definition startsWith (s p : string) : bool := String.prefix p s.

End JS.

Import JS.

(** ** The host registry

    [SectionsManager] is imported from the host
    ([resource://activity-stream/lib/SectionsManager.jsm]); its code is
    not part of this repository. *)

Module SectionsManager.

(** The closures the bridge hands to [SectionsManager.onceInitialized]:
    [updateSection] (from [onUpdateOption]) and the body of [enable].
    Both read the bridge's [id] and [options] when they run. *)
Inductive Callback : Type :=
| CbUpdateSection
| CbEnable.

(** The calls the registry has accepted, oldest first. *)
Inductive Call : Type :=
| CallAddSection (id : string) (options : gmap string jsval)
| CallUpdateSection (id : string) (options : gmap string jsval)
                    (shouldBroadcast : bool)
| CallEnableSection (id : string)
| CallRemoveSection (id : string).

(** Modelled from the spec: the host registry capability of the
    external-interfaces section ([has], [add], [update], [remove],
    [enable], an initialisation flag and callbacks queued until
    initialisation); [SectionsManager.jsm] itself is missing.  Sections
    are stored by value. *)
Record state : Type := mkSM {
  initialized : bool;
  sections : gmap string (gmap string jsval);
  onceInit : list Callback;
  calls : list Call
}.

Definition fresh : state :=
  {| initialized := false; sections := ∅; onceInit := []; calls := [] |}.

(** Modelled from the spec: [sections.has(id)]. *)
Definition has (id : string) (sm : state) : bool :=
  match sections sm !! id with Some _ => true | None => false end.

(** Modelled from the spec: [sections.get(id)], [undefined] read as the
    object without properties. *)
Definition get (id : string) (sm : state) : gmap string jsval :=
  default ∅ (sections sm !! id).

(** Modelled from the spec: [add(id, options)] (re-)adds the section. *)
Definition addSection (id : string) (options : gmap string jsval)
    (sm : state) : state :=
  {| initialized := initialized sm;
     sections := <[id := options]> (sections sm);
     onceInit := onceInit sm;
     calls := calls sm ++ [CallAddSection id options] |}.

(** Modelled from the spec: [update(id, partialOptions, broadcast)] writes
    the given properties onto a registered section and notifies
    dependents when [broadcast] is set; a section that is not registered
    is left alone. *)
Definition updateSection (id : string) (options : gmap string jsval)
    (shouldBroadcast : bool) (sm : state) : state :=
  match sections sm !! id with
  | Some sec =>
      {| initialized := initialized sm;
         sections := <[id := Object_assign sec options]> (sections sm);
         onceInit := onceInit sm;
         calls := calls sm ++ [CallUpdateSection id options shouldBroadcast] |}
  | None => sm
  end.

(** Modelled from the spec: [enable(id)] marks the section enabled. *)
Definition enableSection (id : string) (sm : state) : state :=
  let sm' := updateSection id {[ "enabled" := JBool true ]} true sm in
  {| initialized := initialized sm';
     sections := sections sm';
     onceInit := onceInit sm';
     calls := calls sm' ++ [CallEnableSection id] |}.

(** Modelled from the spec: [remove(id)] drops the section if present. *)
Definition removeSection (id : string) (sm : state) : state :=
  {| initialized := initialized sm;
     sections := delete id (sections sm);
     onceInit := onceInit sm;
     calls := calls sm ++ [CallRemoveSection id] |}.

(** The events the registry delivers to its listeners. *)
Inductive Event : Type :=
| INIT
| UNINIT
| ENABLE_SECTION (id : string)
| DISABLE_SECTION (id : string)
| ACTION_DISPATCHED (type : string) (data : jsval).

End SectionsManager.

(** ** WebExtension events

    [EventManager] comes from [resource://gre/modules/ExtensionCommon.jsm];
    only the listener bookkeeping of [addListener] / [removeListener] is
    needed here. *)

Module EventManager.

Section Listeners.
Context {A : Type} `{EqDecision A}.

(** The WebExtension event contract: an event keeps one registration per
    callback, so adding a callback that is already registered changes
    nothing ([ExtensionCommon.jsm] is outside the repository). *)
Definition addListener (cb : A) (ls : list A) : list A :=
  if decide (cb ∈ ls) then ls else ls ++ [cb].

(** Removing a callback drops its registration. *)
Definition removeListener (cb : A) (ls : list A) : list A :=
  filter (λ x, x ≠ cb) ls.

End Listeners.

End EventManager.

(** ** The section bridge: [class API extends ExtensionAPI] *)

Module Bridge.

(** [ActivityStreamActions]: host action types and the event names they
    are exposed under. *)
Definition ActivityStreamActions : list (string * string) :=
  [ ("SYSTEM_TICK", "SystemTick"); ("NEW_TAB_LOAD", "NewTabOpened") ].

(** What [getAPI] closes over: the shared [options] object of the
    extension and the host registry it talks to. *)
Record world : Type := mkWorld {
  options : gmap string jsval;
  sm : SectionsManager.state
}.

(** The five option setters of [newTabSection]. *)
Inductive Setter : Type :=
| SetTitle | SetIcon | SetMaxRows | SetEmptyState | SetInfoOption.

Section API.

(** [this.extension.id] and [this.extension.getURL]. *)
Variable id : string.
Variable getURL : string → string.

(** The record the constructor passes to [Object.assign] as target. *)
Definition defaultOptions : gmap string jsval :=
  {[ "title" := JStr id;
     "maxRows" := JNum 1;
     "contextMenuOptions" :=
       JArr [ JStr "OpenInNewWindow"; JStr "OpenInPrivateWindow";
              JStr "Separator"; JStr "BlockUrl" ];
     "emptyState" :=
       JObj [ ("message", JObj [ ("defaultMessage", JStr "Loading") ]);
              ("icon", JStr "check") ] ]}.

(** The body of the [for ... in] loop:
    [if (manifestOptions[prop] === null) manifestOptions[prop] = undefined]. *)
Definition nullToUndefined (v : jsval) : jsval :=
  match v with JNull => JUndefined | _ => v end.

(** [API.constructor]; the argument is
    [this.extension.manifest.new_tab_section_options].  [None] stands for
    the [TypeError] raised when a truthy [icon] has no [startsWith]. *)
Definition API_constructor (new_tab_section_options : gmap string jsval)
  : option (gmap string jsval) :=
  let manifestOptions :=
    nullToUndefined <$> Object_assign ∅ new_tab_section_options in
  let sectionOptions := Object_assign defaultOptions manifestOptions in
  let icon := getProp sectionOptions "icon" in
  if truthy icon then
    match icon with
    | JStr s =>
        if negb (startsWith s "moz-extension://")
        then Some (setProp "icon" (JStr (getURL s)) sectionOptions)
        else Some sectionOptions
    | _ => None
    end
  else Some sectionOptions.

(** [updateSection]:
    [SectionsManager.sections.has(id) &&
     SectionsManager.updateSection(id, options, true)]. *)
Definition updateSection (w : world) : world :=
  if SectionsManager.has id (sm w)
  then {| options := options w;
          sm := SectionsManager.updateSection id (options w) true (sm w) |}
  else w.

(** The closure [enable] queues:
    [SectionsManager.addSection(id, options);
     SectionsManager.enableSection(id)]. *)
Definition enableBody (w : world) : world :=
  {| options := options w;
     sm := SectionsManager.enableSection id
             (SectionsManager.addSection id (options w) (sm w)) |}.

Definition run_callback (cb : SectionsManager.Callback) (w : world) : world :=
  match cb with
  | SectionsManager.CbUpdateSection => updateSection w
  | SectionsManager.CbEnable => enableBody w
  end.

(** Modelled from the spec: [SectionsManager.onceInitialized(callback)]
    runs the callback at once when the registry is initialised and
    otherwise queues it to run once on initialisation. *)
Definition onceInitialized (cb : SectionsManager.Callback) (w : world)
  : world :=
  if SectionsManager.initialized (sm w) then run_callback cb w
  else {| options := options w;
          sm := {| SectionsManager.initialized := false;
                   SectionsManager.sections := SectionsManager.sections (sm w);
                   SectionsManager.onceInit :=
                     SectionsManager.onceInit (sm w) ++ [cb];
                   SectionsManager.calls := SectionsManager.calls (sm w) |} |}.

(** Modelled from the spec: the registry finishing its initialisation
    sets the flag and runs the queued callbacks, each once, in order. *)
Definition hostInit (w : world) : world :=
  foldl (λ w' cb, run_callback cb w')
        {| options := options w;
           sm := {| SectionsManager.initialized := true;
                    SectionsManager.sections := SectionsManager.sections (sm w);
                    SectionsManager.onceInit := [];
                    SectionsManager.calls := SectionsManager.calls (sm w) |} |}
        (SectionsManager.onceInit (sm w)).

(** [onUpdateOption]: [SectionsManager.onceInitialized(updateSection)]. *)
Definition onUpdateOption (w : world) : world :=
  onceInitialized SectionsManager.CbUpdateSection w.

Definition writeOption (k : string) (v : jsval) (w : world) : world :=
  {| options := setProp k v (options w); sm := sm w |}.

(** [setTitle(title) { options.title = title; onUpdateOption(); }] *)
Definition setTitle (title : jsval) (w : world) : world :=
  onUpdateOption (writeOption "title" title w).

(** [setIcon(icon) { options.icons = icon; onUpdateOption(); }] *)
Definition setIcon (icon : jsval) (w : world) : world :=
  onUpdateOption (writeOption "icons" icon w).

(** [setMaxRows(maxRows) { options.maxRows = maxRows; onUpdateOption(); }] *)
Definition setMaxRows (maxRows : jsval) (w : world) : world :=
  onUpdateOption (writeOption "maxRows" maxRows w).

(** [setEmptyState(emptyState)
     { options.emptyState = emptyState; onUpdateOption(); }] *)
Definition setEmptyState (emptyState : jsval) (w : world) : world :=
  onUpdateOption (writeOption "emptyState" emptyState w).

(** [setInfoOption(infoOption)
     { options.infoOption = infoOption; onUpdateOption(); }] *)
Definition setInfoOption (infoOption : jsval) (w : world) : world :=
  onUpdateOption (writeOption "infoOption" infoOption w).

Definition callSetter (s : Setter) : jsval → world → world :=
  match s with
  | SetTitle => setTitle
  | SetIcon => setIcon
  | SetMaxRows => setMaxRows
  | SetEmptyState => setEmptyState
  | SetInfoOption => setInfoOption
  end.

(** The field of SectionOptions each setter is documented to change. *)
Definition documentedField (s : Setter) : string :=
  match s with
  | SetTitle => "title"
  | SetIcon => "icon"
  | SetMaxRows => "maxRows"
  | SetEmptyState => "emptyState"
  | SetInfoOption => "infoOption"
  end.

(** The property each setter assigns. *)
Definition writtenField (s : Setter) : string :=
  match s with
  | SetTitle => "title"
  | SetIcon => "icons"
  | SetMaxRows => "maxRows"
  | SetEmptyState => "emptyState"
  | SetInfoOption => "infoOption"
  end.

(** [enable()]. *)
Definition enable (w : world) : world :=
  onceInitialized SectionsManager.CbEnable w.

(** [disable()]. *)
Definition disable (w : world) : world :=
  {| options := options w; sm := SectionsManager.removeSection id (sm w) |}.

(** [addCards(cards, shouldBroadcast = false)]; [None] is the omitted
    second argument. *)
Definition addCards (cards : jsval) (shouldBroadcast : option bool)
    (sm : SectionsManager.state) : SectionsManager.state :=
  if SectionsManager.has id sm
  then SectionsManager.updateSection id {[ "rows" := cards ]}
         (default false shouldBroadcast) sm
  else sm.

(** *** [onInitialized]

    The [register] function given to [EventManager] runs once per
    listener added; [fire.async()] is recorded as a request to call that
    listener. *)

(** [initListener]: does it call [fire.async()]? *)
Definition initListener (sm : SectionsManager.state) : bool :=
  SectionsManager.has id sm
  && truthy (getProp (SectionsManager.get id sm) "enabled").

(** [enabledListener]: does it call [fire.async()]? *)
Definition enabledListener (enabledSection : string) : bool :=
  String.eqb enabledSection id.

(** The listeners registered on [onInitialized] and the [fire.async()]
    requests made so far, oldest first, each naming its listener. *)
Record subscriptions : Type := mkSubs {
  listeners : list nat;
  fired : list nat
}.

Definition fire (cb : nat) (e : subscriptions) : subscriptions :=
  {| listeners := listeners e; fired := fired e ++ [cb] |}.

(** [onInitialized.addListener(cb)]: the catch-up call of [initListener]
    comes first, then the two [SectionsManager.on] registrations. *)
Definition onInitialized_addListener (cb : nat)
    (sm : SectionsManager.state) (e : subscriptions) : subscriptions :=
  if decide (cb ∈ listeners e) then e
  else
    let e' :=
      if SectionsManager.initialized sm
      then (if initListener sm then fire cb e else e)
      else e in
    {| listeners := EventManager.addListener cb (listeners e');
       fired := fired e' |}.

(** [onInitialized.removeListener(cb)]: both registrations are undone. *)
Definition onInitialized_removeListener (cb : nat) (e : subscriptions)
  : subscriptions :=
  {| listeners := EventManager.removeListener cb (listeners e);
     fired := fired e |}.

(** What one registration does when the registry emits [ev]. *)
Definition onInitialized_react (ev : SectionsManager.Event)
    (sm : SectionsManager.state) (cb : nat) (e : subscriptions)
  : subscriptions :=
  match ev with
  | SectionsManager.INIT => if initListener sm then fire cb e else e
  | SectionsManager.ENABLE_SECTION enabledSection =>
      if enabledListener enabledSection then fire cb e else e
  | _ => e
  end.

(** The registry emits [ev]: every registration reacts, in order. *)
Definition onInitialized_emit (ev : SectionsManager.Event)
    (sm : SectionsManager.state) (e : subscriptions) : subscriptions :=
  foldl (λ e' cb, onInitialized_react ev sm cb e') e (listeners e).

(** [onShutdown() { SectionsManager.removeSection(this.extension.id); }] *)
Definition onShutdown (w : world) : world :=
  {| options := options w; sm := SectionsManager.removeSection id (sm w) |}.

(** *** [onUninitialized]

    [uninitListener] calls [fire.async()] whatever the event carries;
    [disabledListener] compares the section named by the event. *)
Definition disabledListener (disabledSection : string) : bool :=
  String.eqb disabledSection id.

(** [onUninitialized.addListener(cb)]: the two [SectionsManager.on]
    registrations, nothing else. *)
Definition onUninitialized_addListener (cb : nat) (e : subscriptions)
  : subscriptions :=
  {| listeners := EventManager.addListener cb (listeners e);
     fired := fired e |}.

Definition onUninitialized_react (ev : SectionsManager.Event) (cb : nat)
    (e : subscriptions) : subscriptions :=
  match ev with
  | SectionsManager.UNINIT => fire cb e
  | SectionsManager.DISABLE_SECTION disabledSection =>
      if disabledListener disabledSection then fire cb e else e
  | _ => e
  end.

Definition onUninitialized_emit (ev : SectionsManager.Event)
    (e : subscriptions) : subscriptions :=
  foldl (λ e' cb, onUninitialized_react ev cb e') e (listeners e).

(** *** Action events *)

(** [Object.keys(ActivityStreamActions)]. *)
Definition actionKeys : list string := fst <$> ActivityStreamActions.

(** [ActivityStreamActions[action]] for an own key of the table; [None]
    when the table has no own property of that name. *)
Definition actionName (action : string) : option string :=
  snd <$> List.find (λ p, String.eqb (fst p) action) ActivityStreamActions.

(** The listener [ActionEventManagerFactory(action)] registers for
    [ACTION_DISPATCHED]: [type === action && fire.async(data)].  The
    result is the argument of [fire.async], if it is called. *)
Definition actionListener (action : string) (ev : SectionsManager.Event)
  : option jsval :=
  match ev with
  | SectionsManager.ACTION_DISPATCHED type data =>
      if String.eqb type action then Some data else None
  | _ => None
  end.

(** The loop that closes [getAPI]: for every key [action] of the table
    the property [`on${ActivityStreamActions[action]}`] of
    [newTabSection] becomes the event of that action.  The result lists
    the property names with the action each one listens for. *)
Definition actionEvents : list (string * string) :=
  omap (λ action,
          (λ name, (String.append "on" name, action)) <$> actionName action)
       actionKeys.

(** *** The registry's initialisation as the bridge sees it

    Before the registry is initialised, [enable()] and the setters leave
    a closure with [once(INIT, ...)] and [onInitialized.addListener]
    leaves [initListener] with [on(INIT, ...)].  The registry's emitter
    (the host's, not part of the repository) calls the handlers of an
    event in the order in which they were registered. *)
Inductive InitHandler : Type :=
| OnceCallback (cb : SectionsManager.Callback)
| InitListener (l : nat).

(** The bridge, the listeners of [onInitialized], and the handlers of
    [INIT] in registration order. *)
Record session : Type := mkSession {
  s_world : world;
  s_subs : subscriptions;
  s_onINIT : list InitHandler
}.



(** A setter: [updateSection] runs now or waits for [INIT]. *)
Definition session_callSetter (s : Setter) (v : jsval) (σ : session)
  : session :=
  {| s_world := callSetter s v (s_world σ);
     s_subs := s_subs σ;
     s_onINIT :=
       if SectionsManager.initialized (sm (s_world σ)) then s_onINIT σ
       else s_onINIT σ ++ [OnceCallback SectionsManager.CbUpdateSection] |}.





End API.

End Bridge.

(** ** The card poller: [nyt-extension/background.js] *)

Module Poller.

(** One element of an entry's [multimedia] array. *)
Record Media : Type := mkMedia {
  m_type : string;
  m_width : Z;
  m_url : string
}.

(** One element of [results]. *)
Record Result : Type := mkResult {
  r_abstract : string;
  r_title : string;
  r_url : string;
  r_multimedia : list Media
}.

(** The object [getCards] builds for each entry. *)
Record Card : Type := mkCard {
  title : string;
  url : string;
  description : string;
  image : string;
  hostname : string
}.

(** The local [image] of the [map] callback. *)
Record Image : Type := mkImage {
  i_width : Z;
  i_url : string
}.

(** [const UPDATE_INTERVAL = 15 * 60 * 1000]. *)
Definition UPDATE_INTERVAL : Z := 15 * 60 * 1000.

(** The body of [multimedia.forEach]:
    [if (type === "image" && width > image.width && width <= 300)
       image = {width, url}]. *)
Definition pickImage (image : Image) (m : Media) : Image :=
  if String.eqb (m_type m) "image"
     && (m_width m >? i_width image)%Z
     && (m_width m <=? 300)%Z
  then {| i_width := m_width m; i_url := m_url m |}
  else image.

(** [let image = {width: 0, url: ""}; multimedia.forEach(...)]. *)
Definition selectImage (multimedia : list Media) : Image :=
  foldl pickImage {| i_width := 0; i_url := "" |} multimedia.

(** The callback of [results.slice(0, 20).map]. *)
Definition toCard (r : Result) : Card :=
  {| title := r_title r;
     url := r_url r;
     description := r_abstract r;
     image := i_url (selectImage (r_multimedia r));
     hostname := "nytimes" |}.

(** What the ["load"] listener passes to [resolve]. *)
Definition cardsOfResults (results : list Result) : list Card :=
  toCard <$> take 20 results.

(** How a request ends.  The promise of [getCards] has no [reject] path
    and no ["error"] listener: it is resolved by the ["load"] listener
    only, after [JSON.parse] and the mapping went through. *)
Inductive Response : Type :=
| RequestFailed
    (* network error: ["load"] never fires *)
| LoadMalformed
    (* ["load"] fires, [JSON.parse(req.response)] or [results.slice]
       throws inside the listener *)
| LoadEnvelope (results : list Result).

(** [getCards], from the response on: the value the promise resolves to,
    or [None] when it never settles. *)
Definition getCards (r : Response) : option (list Card) :=
  match r with
  | RequestFailed | LoadMalformed => None
  | LoadEnvelope results => Some (cardsOfResults results)
  end.

(** The three functions of the script that are used as listeners. *)
Inductive Handler : Type :=
| h_update
| h_init
| h_uninit.

#[global] Instance Handler_eq_dec : EqDecision Handler.
Proof. solve_decision. Defined.

(** An [update] suspended at [await getCards()] resumes either on its own
    (called as tick listener) or inside [init], which then goes on to
    [addListener]. *)
Inductive Caller : Type :=
| ByTick
| ByInit.

(** The script's state: the two [let] variables, the requests in flight
    with what awaits each, the number of requests sent, the listeners of
    [browser.newTabSection.onSystemTick], and the registry behind
    [browser.newTabSection]. *)
Record state : Type := mkState {
  cards : option (list Card);
  lastUpdated : option Z;
  pending : list Caller;
  requests : nat;
  onSystemTick : list Handler;
  host : SectionsManager.state
}.

(** The cards as the value handed to [addCards]. *)
Definition jsOfCard (c : Card) : jsval :=
  JObj [ ("title", JStr (title c)); ("url", JStr (url c));
         ("description", JStr (description c)); ("image", JStr (image c));
         ("hostname", JStr (hostname c)) ].

Definition jsOfCards (cs : list Card) : jsval := JArr (jsOfCard <$> cs).

(** The events the script reacts to; each carries what [Date.now()]
    returns while it is handled. *)
Inductive Event : Type :=
| Initialized (now : Z)
| Uninitialized
| Tick (now : Z)
| Load (k : nat) (r : Response) (now : Z).

Section Script.

(** The extension's id, under which its section is registered. *)
Variable id : string.

(** [browser.newTabSection.addCards(cards, true)]. *)
Definition publish (cs : list Card) (s : state) : state :=
  {| cards := cards s; lastUpdated := lastUpdated s; pending := pending s;
     requests := requests s; onSystemTick := onSystemTick s;
     host := Bridge.addCards id (jsOfCards cs) (Some true) (host s) |}.

(** [!cards || Date.now() - lastUpdated > UPDATE_INTERVAL]; with
    [lastUpdated] undefined the difference is [NaN] and the comparison is
    false. *)
Definition needsFetch (s : state) (now : Z) : bool :=
  match cards s with
  | None => true
  | Some _ =>
      match lastUpdated s with
      | Some t => (now - t >? UPDATE_INTERVAL)%Z
      | None => false
      end
  end.

(** [browser.newTabSection.onSystemTick.addListener(update)]. *)
Definition subscribe (s : state) : state :=
  {| cards := cards s; lastUpdated := lastUpdated s; pending := pending s;
     requests := requests s;
     onSystemTick := EventManager.addListener h_update (onSystemTick s);
     host := host s |}.

(** What follows [update] in its caller. *)
Definition afterUpdate (c : Caller) (s : state) : state :=
  match c with
  | ByTick => s
  | ByInit => subscribe s
  end.

(** [update], up to its completion or to [await getCards()]: there the
    request is sent and the rest of the function, with the rest of the
    caller, waits in [pending]. *)
Definition update (c : Caller) (now : Z) (s : state) : state :=
  if needsFetch s now then
    {| cards := cards s; lastUpdated := lastUpdated s;
       pending := pending s ++ [c];
       requests := S (requests s); onSystemTick := onSystemTick s;
       host := host s |}
  else
    match cards s with
    | Some cs => afterUpdate c (publish cs s)
    | None => afterUpdate c s
    end.

(** [update] after [await getCards()] returned [cs]:
    [cards = cs; addCards(cards, true); lastUpdated = Date.now()]. *)
Definition resume (c : Caller) (cs : list Card) (now : Z) (s : state)
  : state :=
  let s1 :=
    {| cards := Some cs; lastUpdated := lastUpdated s; pending := pending s;
       requests := requests s; onSystemTick := onSystemTick s;
       host := host s |} in
  let s2 := publish cs s1 in
  let s3 :=
    {| cards := cards s2; lastUpdated := Some now; pending := pending s2;
       requests := requests s2; onSystemTick := onSystemTick s2;
       host := host s2 |} in
  afterUpdate c s3.

(** [init]: [await update(); onSystemTick.addListener(update)]. *)
Definition init (now : Z) (s : state) : state := update ByInit now s.

(** [uninit]: [onSystemTick.removeListener(update)]. *)
Definition uninit (s : state) : state :=
  {| cards := cards s; lastUpdated := lastUpdated s; pending := pending s;
     requests := requests s;
     onSystemTick := EventManager.removeListener h_update (onSystemTick s);
     host := host s |}.

Definition runHandler (now : Z) (s : state) (h : Handler) : state :=
  match h with
  | h_update => update ByTick now s
  | h_init => init now s
  | h_uninit => uninit s
  end.

(** The [k]-th request in flight ends with [r]: its entry leaves
    [pending]; the awaiting code resumes when the promise resolves and is
    never run otherwise. *)
Definition load (k : nat) (r : Response) (now : Z) (s : state) : state :=
  match pending s !! k with
  | None => s
  | Some c =>
      let s' :=
        {| cards := cards s; lastUpdated := lastUpdated s;
           pending := delete k (pending s);
           requests := requests s; onSystemTick := onSystemTick s;
           host := host s |} in
      match getCards r with
      | Some cs => resume c cs now s'
      | None => s'
      end
  end.

(** One event.  [onInitialized] and [onUninitialized] carry [init] and
    [uninit]; a tick calls the listeners registered at that moment. *)
Definition step (s : state) (ev : Event) : state :=
  match ev with
  | Initialized now => init now s
  | Uninitialized => uninit s
  | Tick now => foldl (runHandler now) s (onSystemTick s)
  | Load k r now => load k r now s
  end.

Definition run (s : state) (evs : list Event) : state := foldl step s evs.

(** The script right after it was loaded, in front of registry [h]. *)
Definition start (h : SectionsManager.state) : state :=
  {| cards := None; lastUpdated := None; pending := []; requests := 0;
     onSystemTick := []; host := h |}.

End Script.

End Poller.

(** * Specification vocabulary and sample states *)

(** A registry in which the section "ext" is registered and enabled. *)
Definition registered_host : SectionsManager.state :=
  {| SectionsManager.initialized := true;
     SectionsManager.sections :=
       {[ "ext" := <["enabled" := JBool true]> (Bridge.defaultOptions "ext") ]};
     SectionsManager.onceInit := [];
     SectionsManager.calls := [] |}.

(** The bridge of "ext" in front of a registry that is initialised and
    has its section. *)
Definition registered_world : Bridge.world :=
  {| Bridge.options := Bridge.defaultOptions "ext";
     Bridge.sm := registered_host |}.

(** How many [fire.async()] requests name listener [cb]. *)
Definition fireCount (cb : nat) (e : Bridge.subscriptions) : nat :=
  length (filter (λ x, x = cb) (Bridge.fired e)).

(** The media items that can become the image, as the code tests them:
    type ["image"], width above the initial best of 0 and at most 300. *)
Definition qualifies (m : Poller.Media) : Prop :=
  Poller.m_type m = "image" ∧ (0 < Poller.m_width m ≤ 300)%Z.

(** The media items that can become the image, in the words of the
    specification: type ["image"] and width at most 300. *)
Definition qualifies_spec (m : Poller.Media) : Prop :=
  Poller.m_type m = "image" ∧ (Poller.m_width m ≤ 300)%Z.

(** [u] is the url of the first widest item of [ms] among those that
    satisfy [q], and the empty string when no item of [ms] satisfies [q]. *)
Definition firstWidest (q : Poller.Media → Prop) (ms : list Poller.Media)
    (u : string) : Prop :=
  (u = "" ∧ ∀ m, m ∈ ms → ¬ q m) ∨
  (∃ i m,
      ms !! i = Some m ∧ q m ∧ u = Poller.m_url m ∧
      (∀ m', m' ∈ ms → q m' → (Poller.m_width m' ≤ Poller.m_width m)%Z) ∧
      (∀ j m', (j < i)%nat → ms !! j = Some m' → q m' →
               (Poller.m_width m' < Poller.m_width m)%Z)).

(** A poller that is subscribed to the tick and holds one card, fetched
    at time 0 and published to the registered section of "ext". *)
Definition sample_card : Poller.Card :=
  {| Poller.title := "title"; Poller.url := "https://nyti.ms/a";
     Poller.description := "abstract"; Poller.image := "";
     Poller.hostname := "nytimes" |}.

Definition cached_state : Poller.state :=
  {| Poller.cards := Some [sample_card];
     Poller.lastUpdated := Some 0%Z;
     Poller.pending := [];
     Poller.requests := 1;
     Poller.onSystemTick := [Poller.h_update];
     Poller.host :=
       Bridge.addCards "ext" (Poller.jsOfCards [sample_card]) (Some true)
         registered_host |}.

(** The tick listeners hold [update] at most once and nothing else. *)
Definition tickInv (s : Poller.state) : Prop :=
  NoDup (Poller.onSystemTick s) ∧
  ∀ h, h ∈ Poller.onSystemTick s → h = Poller.h_update.

(** A registry call that sets the rows of section [id] to a card list,
    with broadcast. *)
Definition rowsBroadcast (id : string) (c : SectionsManager.Call) : Prop :=
  ∃ cs, c = SectionsManager.CallUpdateSection id
              {[ "rows" := Poller.jsOfCards cs ]} true.

(** Registry [h'] differs from [h] by published card lists only. *)
Definition onlyPublished (id : string) (h h' : SectionsManager.state)
  : Prop :=
  SectionsManager.initialized h' = SectionsManager.initialized h ∧
  SectionsManager.onceInit h' = SectionsManager.onceInit h ∧
  SectionsManager.has id h' = SectionsManager.has id h ∧
  (∀ other, other ≠ id →
     SectionsManager.sections h' !! other
     = SectionsManager.sections h !! other) ∧
  (∀ k, k ≠ "rows" →
     getProp (SectionsManager.get id h') k
     = getProp (SectionsManager.get id h) k) ∧
  ∃ l, SectionsManager.calls h' = SectionsManager.calls h ++ l ∧
       Forall (rowsBroadcast id) l.

(** The cache is either absent, with no timestamp, or a list of at most
    20 cards, all labelled ["nytimes"], with a timestamp. *)
Definition cacheInv (s : Poller.state) : Prop :=
  match Poller.cards s with
  | Some cs =>
      is_Some (Poller.lastUpdated s) ∧ (length cs ≤ 20)%nat ∧
      Forall (λ c, Poller.hostname c = "nytimes") cs
  | None => Poller.lastUpdated s = None
  end.

(** With the section registered, its rows are the cached list. *)
Definition rowsInv (id : string) (s : Poller.state) : Prop :=
  SectionsManager.has id (Poller.host s) = true →
  ∀ cs, Poller.cards s = Some cs →
    getProp (SectionsManager.get id (Poller.host s)) "rows"
    = Poller.jsOfCards cs.

(** * Basic facts *)

Section JSFacts.

Lemma getProp_setProp_eq k v o : getProp (setProp k v o) k = v.
Proof. unfold getProp, setProp. by rewrite lookup_insert_eq. Qed.

Lemma getProp_setProp_ne k k' v o :
  k ≠ k' → getProp (setProp k v o) k' = getProp o k'.
Proof. intros Hne. unfold getProp, setProp. by rewrite lookup_insert_ne. Qed.

Lemma lookup_Object_assign target source k :
  Object_assign target source !! k =
  match source !! k with Some v => Some v | None => target !! k end.
Proof.
  unfold Object_assign. rewrite lookup_union.
  destruct (source !! k), (target !! k); reflexivity.
Qed.

Lemma Object_assign_empty_target source : Object_assign ∅ source = source.
Proof. unfold Object_assign. apply (right_id_L ∅ (∪)). Qed.

End JSFacts.

Section SectionsManagerFacts.

Import SectionsManager.

Lemma has_true id sm : has id sm = true ↔ is_Some (sections sm !! id).
Proof.
  unfold has. destruct (sections sm !! id) as [sec |].
  - split; [by eexists | done].
  - split; [done | by intros [? ?]].
Qed.

Lemma has_false id sm : has id sm = false ↔ sections sm !! id = None.
Proof. unfold has. by destruct (sections sm !! id). Qed.

End SectionsManagerFacts.

Section ListenerFacts.

Import EventManager.
Context {A : Type} `{EqDecision A}.
Implicit Types (cb : A) (ls : list A).

Lemma addListener_NoDup cb ls : NoDup ls → NoDup (addListener cb ls).
Proof.
  intros Hnd. unfold addListener. case_decide; [done |].
  apply NoDup_app. repeat split; [done | | apply NoDup_singleton].
  intros x Hx Hx'. apply list_elem_of_singleton in Hx'. by subst.
Qed.

Lemma removeListener_NoDup cb ls : NoDup ls → NoDup (removeListener cb ls).
Proof. apply NoDup_filter. Qed.

Lemma addListener_elem cb ls : cb ∈ addListener cb ls.
Proof.
  unfold addListener. case_decide; [done |].
  apply elem_of_app. right. by apply list_elem_of_singleton.
Qed.

Lemma addListener_elem_inv x cb ls :
  x ∈ addListener cb ls → x = cb ∨ x ∈ ls.
Proof.
  unfold addListener. case_decide; [by right |].
  intros [H' | H']%elem_of_app; [by right |].
  left. by apply list_elem_of_singleton in H'.
Qed.

Lemma removeListener_elem_inv x cb ls :
  x ∈ removeListener cb ls → x ∈ ls ∧ x ≠ cb.
Proof. unfold removeListener. rewrite list_elem_of_filter. tauto. Qed.

Lemma removeListener_not_elem cb ls : cb ∉ removeListener cb ls.
Proof. intros H'%removeListener_elem_inv. by destruct H'. Qed.

End ListenerFacts.

(** * Properties of the section bridge *)

Section BridgeFacts.

Import SectionsManager.
Import Bridge.

Variable id : string.
Variable getURL : string → string.

(** ** Construction *)

Lemma defaultOptions_icon : defaultOptions id !! "icon" = None.
Proof. reflexivity. Qed.

Lemma defaultOptions_title : defaultOptions id !! "title" = Some (JStr id).
Proof. reflexivity. Qed.

(** Before the icon is resolved, the options are the manifest's
    properties, [null] turned into [undefined], over the defaults. *)
Lemma merged_lookup (O : gmap string jsval) k :
  Object_assign (defaultOptions id) (nullToUndefined <$> Object_assign ∅ O)
    !! k =
  match O !! k with
  | Some v => Some (nullToUndefined v)
  | None => defaultOptions id !! k
  end.
Proof.
  rewrite lookup_Object_assign, Object_assign_empty_target, lookup_fmap.
  by destruct (O !! k).
Qed.

(** Whenever the constructor returns, every property other than [icon]
    is the manifest's when the manifest has it ([null] read as
    [undefined]) and the default's otherwise. *)
Lemma API_constructor_lookup (O opts : gmap string jsval) k :
  API_constructor id getURL O = Some opts →
  k ≠ "icon" →
  opts !! k =
  match O !! k with
  | Some v => Some (nullToUndefined v)
  | None => defaultOptions id !! k
  end.
Proof.
  intros Hc Hk. rewrite <- merged_lookup.
  unfold API_constructor in Hc. cbv zeta in Hc.
  destruct (truthy _); [| by inversion Hc].
  destruct (getProp _ "icon") as [| | | | s | |]; try discriminate.
  destruct (negb _); inversion Hc; subst; [| done].
  unfold setProp. by rewrite lookup_insert_ne.
Qed.

(** A property the manifest gives with a value other than [null]
    overrides the default. *)
Lemma API_constructor_override (O opts : gmap string jsval) k v :
  API_constructor id getURL O = Some opts →
  k ≠ "icon" → O !! k = Some v → v ≠ JNull →
  opts !! k = Some v.
Proof.
  intros Hc Hk HO Hv. rewrite (API_constructor_lookup O opts k Hc Hk), HO.
  by destruct v.
Qed.

(** A property the manifest does not mention keeps the default. *)
Lemma API_constructor_absent (O opts : gmap string jsval) k :
  API_constructor id getURL O = Some opts →
  k ≠ "icon" → O !! k = None →
  opts !! k = defaultOptions id !! k.
Proof.
  intros Hc Hk HO. by rewrite (API_constructor_lookup O opts k Hc Hk), HO.
Qed.

(** A manifest whose single property is [null] yields the defaults with
    that property present and [undefined]. *)
Lemma API_constructor_single_null k :
  API_constructor id getURL {[ k := JNull ]} =
  Some (<[ k := JUndefined ]> (defaultOptions id)).
Proof.
  unfold API_constructor. cbv zeta.
  rewrite Object_assign_empty_target, map_fmap_singleton. simpl.
  unfold Object_assign. rewrite <- insert_union_singleton_l.
  assert (getProp (<[k:=JUndefined]> (defaultOptions id)) "icon" = JUndefined)
    as ->; [| done].
  unfold getProp. destruct (decide (k = "icon")) as [-> | Hne].
  - by rewrite lookup_insert_eq.
  - by rewrite lookup_insert_ne.
Qed.

(** ** Setters *)

Lemma run_callback_options cb w :
  options (run_callback id cb w) = options w.
Proof.
  destruct cb; simpl; [| done].
  unfold updateSection. by destruct (has id (sm w)).
Qed.

Lemma onceInitialized_options cb w :
  options (onceInitialized id cb w) = options w.
Proof.
  unfold onceInitialized. destruct (initialized (sm w)); [| done].
  apply run_callback_options.
Qed.

(** Each setter assigns one property of [options] and nothing else. *)
Lemma callSetter_options s v w :
  options (callSetter id s v w) = setProp (writtenField s) v (options w).
Proof.
  destruct s; simpl;
    unfold setTitle, setIcon, setMaxRows, setEmptyState, setInfoOption,
      onUpdateOption;
    by rewrite onceInitialized_options.
Qed.

(** For the four setters other than [setIcon] the assigned property is the
    documented field: it becomes [v] and all other properties keep their
    value. *)
Lemma callSetter_frame s v w :
  s ≠ SetIcon →
  getProp (options (callSetter id s v w)) (documentedField s) = v ∧
  ∀ k, k ≠ documentedField s →
       getProp (options (callSetter id s v w)) k = getProp (options w) k.
Proof.
  intros Hs. rewrite callSetter_options.
  assert (writtenField s = documentedField s) as -> by by destruct s.
  split; [apply getProp_setProp_eq |].
  intros k Hk. by apply getProp_setProp_ne.
Qed.

(** ** [updateSection] and [addCards] *)

Lemma updateSection_absent w :
  has id (sm w) = false → updateSection id w = w.
Proof. intros H. unfold updateSection. by rewrite H. Qed.

Lemma updateSection_present w sec :
  sections (sm w) !! id = Some sec →
  updateSection id w =
  {| options := options w;
     sm := {| initialized := initialized (sm w);
              sections :=
                <[id := Object_assign sec (options w)]> (sections (sm w));
              onceInit := onceInit (sm w);
              calls := calls (sm w)
                         ++ [CallUpdateSection id (options w) true] |} |}.
Proof.
  intros H. unfold updateSection, has, SectionsManager.updateSection.
  by rewrite H.
Qed.

Lemma hostInit_queue_snoc w q cb :
  foldl (λ w' c, run_callback id c w') w (q ++ [cb]) =
  run_callback id cb (foldl (λ w' c, run_callback id c w') w q).
Proof. by rewrite foldl_app. Qed.

End BridgeFacts.

(** ** The claims on the bridge *)

(** C1 (the code departs from it). The claim: a key whose manifest value is
    [null] ends up with the default's value and no field the default
    supplies is left undefined.  The constructor turns [null] into
    [undefined] and [Object.assign] then copies that [undefined] over the
    default: for the manifest [{title: null}] the built options read
    [undefined] at [title], although the default there is the extension's
    id. *)
Theorem API_constructor_null_title_clobbers_default :
  ∀ (id : string) (getURL : string → string),
    ∃ opts,
      Bridge.API_constructor id getURL {[ "title" := JNull ]} = Some opts ∧
      getProp opts "title" = JUndefined ∧
      getProp (Bridge.defaultOptions id) "title" = JStr id ∧
      opts ≠ Bridge.defaultOptions id.
Proof.
  intros id getURL. eexists. split; [apply API_constructor_single_null |].
  split; [apply getProp_setProp_eq |]. split; [reflexivity |].
  intros Heq.
  assert (<["title" := JUndefined]> (Bridge.defaultOptions id) !! "title"
          = Bridge.defaultOptions id !! "title") as Hl by by rewrite Heq.
  rewrite lookup_insert_eq in Hl. discriminate Hl.
Qed.

(** C2 (the code departs from it). The claim: every setter changes its own
    field of SectionOptions to [v].  [setIcon] assigns [options.icons]:
    the [icon] field keeps its old value, whatever [v] is, and a property
    [icons] receives [v]. *)
Theorem setIcon_writes_icons_not_icon :
  ∀ (id : string) (v : jsval) (w : Bridge.world),
    getProp (Bridge.options (Bridge.setIcon id v w)) "icon"
      = getProp (Bridge.options w) "icon" ∧
    getProp (Bridge.options (Bridge.setIcon id v w)) "icons" = v ∧
    getProp
      (Bridge.options
         (Bridge.setIcon id (JStr "moz-extension://x/new.png")
            {| Bridge.options := Bridge.defaultOptions id;
               Bridge.sm := SectionsManager.fresh |}))
      "icon" = JUndefined.
Proof.
  intros id v w.
  pose proof (callSetter_options id Bridge.SetIcon) as H. simpl in H.
  rewrite !H. split; [| split].
  - by apply getProp_setProp_ne.
  - apply getProp_setProp_eq.
  - reflexivity.
Qed.

(** C6. [addCards(cards, shouldBroadcast)] on a registry that has the
    section writes [rows], and only [rows], onto the stored section and
    passes the broadcast flag on ([false] when omitted); on a registry
    that does not have the section it changes nothing at all: no section
    gains rows, no call reaches the registry and nothing is queued. *)
Theorem addCards_updates_rows_or_drops :
  ∀ (id : string) (cards : jsval) (shouldBroadcast : option bool)
    (sm : SectionsManager.state),
    (SectionsManager.has id sm = false →
       Bridge.addCards id cards shouldBroadcast sm = sm) ∧
    (∀ sec, SectionsManager.sections sm !! id = Some sec →
       Bridge.addCards id cards shouldBroadcast sm =
       {| SectionsManager.initialized := SectionsManager.initialized sm;
          SectionsManager.sections :=
            <[id := <["rows" := cards]> sec]> (SectionsManager.sections sm);
          SectionsManager.onceInit := SectionsManager.onceInit sm;
          SectionsManager.calls :=
            SectionsManager.calls sm
              ++ [SectionsManager.CallUpdateSection id {[ "rows" := cards ]}
                    (default false shouldBroadcast)] |} ∧
       getProp (SectionsManager.get id
                  (Bridge.addCards id cards shouldBroadcast sm)) "rows"
         = cards ∧
       ∀ k, k ≠ "rows" →
            getProp (SectionsManager.get id
                       (Bridge.addCards id cards shouldBroadcast sm)) k
              = getProp sec k).
Proof.
  intros id cards b sm. split.
  - intros H. unfold Bridge.addCards. by rewrite H.
  - intros sec Hsec.
    assert (Bridge.addCards id cards b sm =
       {| SectionsManager.initialized := SectionsManager.initialized sm;
          SectionsManager.sections :=
            <[id := <["rows" := cards]> sec]> (SectionsManager.sections sm);
          SectionsManager.onceInit := SectionsManager.onceInit sm;
          SectionsManager.calls :=
            SectionsManager.calls sm
              ++ [SectionsManager.CallUpdateSection id {[ "rows" := cards ]}
                    (default false b)] |}) as Heq.
    { unfold Bridge.addCards, SectionsManager.has,
        SectionsManager.updateSection.
      rewrite Hsec. unfold Object_assign.
      by rewrite <- insert_union_singleton_l. }
    rewrite Heq. split; [done |].
    unfold SectionsManager.get, getProp. simpl. rewrite lookup_insert_eq.
    simpl. split; [by rewrite lookup_insert_eq |].
    intros k Hk. by rewrite lookup_insert_ne.
Qed.

Lemma addCards_updates_rows_or_drops_witness :
  Bridge.addCards "ext" (JArr []) None SectionsManager.fresh
    = SectionsManager.fresh ∧
  getProp (SectionsManager.get "ext"
             (Bridge.addCards "ext" (JArr []) (Some true) registered_host))
          "rows" = JArr [].
Proof.
  split.
  - apply (addCards_updates_rows_or_drops "ext" (JArr []) None
             SectionsManager.fresh). reflexivity.
  - eapply (addCards_updates_rows_or_drops "ext" (JArr []) (Some true)
             registered_host). reflexivity.
Defined.

(** C9. Every setter hands [updateSection] to [onceInitialized]: with the
    registry initialised it runs at once, otherwise no call is made and it
    runs when the registry initialises, after the callbacks queued before
    it.  Whenever it runs, it does nothing if the section is not
    registered and otherwise passes the whole [options] object, as it is
    at that moment, to the registry's update with broadcast [true]. *)
Theorem setter_update_request :
  ∀ (id : string) (s : Bridge.Setter) (v : jsval) (w : Bridge.world),
    let w1 := Bridge.writeOption (Bridge.writtenField s) v w in
    (SectionsManager.initialized (Bridge.sm w) = true →
       Bridge.callSetter id s v w = Bridge.updateSection id w1) ∧
    (SectionsManager.initialized (Bridge.sm w) = false →
       SectionsManager.calls (Bridge.sm (Bridge.callSetter id s v w))
         = SectionsManager.calls (Bridge.sm w) ∧
       SectionsManager.sections (Bridge.sm (Bridge.callSetter id s v w))
         = SectionsManager.sections (Bridge.sm w) ∧
       Bridge.hostInit id (Bridge.callSetter id s v w)
         = Bridge.updateSection id (Bridge.hostInit id w1)) ∧
    (∀ w', SectionsManager.has id (Bridge.sm w') = false →
       Bridge.updateSection id w' = w') ∧
    (∀ w' sec, SectionsManager.sections (Bridge.sm w') !! id = Some sec →
       Bridge.updateSection id w' =
       {| Bridge.options := Bridge.options w';
          Bridge.sm :=
            {| SectionsManager.initialized :=
                 SectionsManager.initialized (Bridge.sm w');
               SectionsManager.sections :=
                 <[id := Object_assign sec (Bridge.options w')]>
                   (SectionsManager.sections (Bridge.sm w'));
               SectionsManager.onceInit :=
                 SectionsManager.onceInit (Bridge.sm w');
               SectionsManager.calls :=
                 SectionsManager.calls (Bridge.sm w')
                   ++ [SectionsManager.CallUpdateSection id
                         (Bridge.options w') true] |} |}).
Proof.
  intros id s v w w1.
  assert (Bridge.callSetter id s v w =
          Bridge.onceInitialized id SectionsManager.CbUpdateSection w1)
    as Hs by by destruct s.
  split; [| split; [| split]].
  - intros Hi. rewrite Hs. unfold Bridge.onceInitialized.
    subst w1. simpl. by rewrite Hi.
  - intros Hi. rewrite Hs. unfold Bridge.onceInitialized.
    subst w1. simpl. rewrite Hi. simpl. split; [done |]. split; [done |].
    unfold Bridge.hostInit. simpl. by rewrite hostInit_queue_snoc.
  - apply updateSection_absent.
  - apply updateSection_present.
Qed.

Lemma setter_update_request_witness :
  SectionsManager.calls
    (Bridge.sm (Bridge.callSetter "ext" Bridge.SetTitle (JStr "News")
                  registered_world))
  = [SectionsManager.CallUpdateSection "ext"
       (<["title" := JStr "News"]> (Bridge.defaultOptions "ext")) true].
Proof.
  pose proof (setter_update_request "ext" Bridge.SetTitle (JStr "News")
                registered_world) as [Hi [_ [_ Hp]]].
  rewrite (Hi eq_refl).
  erewrite Hp; [reflexivity |]. reflexivity.
Defined.

(** ** [onInitialized] *)

Lemma filter_eq_not_elem (cb : nat) (ls : list nat) :
  cb ∉ ls → filter (λ x, x = cb) ls = [].
Proof.
  induction ls as [| x ls IH]; intros Hn; [done |].
  apply not_elem_of_cons in Hn as [Hne Hn].
  rewrite filter_cons. case_decide; [by subst | by apply IH].
Qed.

Lemma count_NoDup_elem (cb : nat) (ls : list nat) :
  NoDup ls → cb ∈ ls → length (filter (λ x, x = cb) ls) = 1%nat.
Proof.
  induction 1 as [| x ls Hx Hnd IH]; intros Hin.
  - by apply not_elem_of_nil in Hin.
  - rewrite filter_cons. case_decide as Hd.
    + subst x. simpl. by rewrite filter_eq_not_elem.
    + apply elem_of_cons in Hin as [-> | Hin]; [done | by apply IH].
Qed.

Lemma fire_all_fold (ls : list nat) (e : Bridge.subscriptions) :
  foldl (λ e' cb, Bridge.fire cb e') e ls =
  {| Bridge.listeners := Bridge.listeners e;
     Bridge.fired := Bridge.fired e ++ ls |}.
Proof.
  revert e. induction ls as [| x ls IH]; intros e; simpl.
  - rewrite app_nil_r. by destruct e.
  - rewrite IH. simpl. by rewrite <- app_assoc.
Qed.

Lemma fire_none_fold (ls : list nat) (e : Bridge.subscriptions) :
  foldl (λ e' (_ : nat), e') e ls = e.
Proof. induction ls; simpl; auto. Qed.



(** An [INIT] event fires every listener once when the section is
    registered and enabled, and none otherwise. *)
Lemma emit_init id sm e :
  Bridge.onInitialized_emit id SectionsManager.INIT sm e =
  if Bridge.initListener id sm
  then {| Bridge.listeners := Bridge.listeners e;
          Bridge.fired := Bridge.fired e ++ Bridge.listeners e |}
  else e.
Proof.
  unfold Bridge.onInitialized_emit. simpl.
  destruct (Bridge.initListener id sm);
    [apply fire_all_fold | apply fire_none_fold].
Qed.



(** * Properties of the card poller *)

(** ** The fetched card list *)

Lemma pickImage_taken image m :
  Poller.m_type m = "image" →
  (Poller.i_width image < Poller.m_width m ≤ 300)%Z →
  Poller.pickImage image m =
  {| Poller.i_width := Poller.m_width m; Poller.i_url := Poller.m_url m |}.
Proof.
  intros Ht [Hlo Hhi]. unfold Poller.pickImage.
  rewrite (proj2 (String.eqb_eq _ _) Ht).
  rewrite (proj2 (Z.gtb_lt _ _) Hlo), (proj2 (Z.leb_le _ _) Hhi). done.
Qed.

Lemma pickImage_cases image m :
  (Poller.pickImage image m =
     {| Poller.i_width := Poller.m_width m; Poller.i_url := Poller.m_url m |}
   ∧ Poller.m_type m = "image"
   ∧ (Poller.i_width image < Poller.m_width m ≤ 300)%Z)
  ∨ (Poller.pickImage image m = image
     ∧ (Poller.m_type m = "image" → (Poller.m_width m ≤ 300)%Z →
        (Poller.m_width m ≤ Poller.i_width image)%Z)).
Proof.
  unfold Poller.pickImage.
  destruct (String.eqb_spec (Poller.m_type m) "image") as [Ht | Ht]; simpl.
  - destruct (Z.gtb_spec (Poller.m_width m) (Poller.i_width image)); simpl.
    + destruct (Z.leb_spec (Poller.m_width m) 300); simpl.
      * left. repeat split; done.
      * right. split; [done | lia].
    + right. split; [done | lia].
  - right. split; [done |]. intros Ht'. done.
Qed.

(** The loop over [multimedia], started from any current best: either the
    best is never replaced, and then no item of type ["image"] and width
    at most 300 is wider than it, or the result is the first widest such
    item, which is wider than the initial best. *)
Lemma foldl_pickImage_spec (ms : list Poller.Media) :
  ∀ image,
    (foldl Poller.pickImage image ms = image ∧
     ∀ m, m ∈ ms → qualifies_spec m →
          (Poller.m_width m ≤ Poller.i_width image)%Z)
    ∨
    (∃ i m,
        ms !! i = Some m ∧ qualifies_spec m ∧
        (Poller.i_width image < Poller.m_width m)%Z ∧
        foldl Poller.pickImage image ms =
          {| Poller.i_width := Poller.m_width m;
             Poller.i_url := Poller.m_url m |} ∧
        (∀ m', m' ∈ ms → qualifies_spec m' →
               (Poller.m_width m' ≤ Poller.m_width m)%Z) ∧
        (∀ j m', (j < i)%nat → ms !! j = Some m' → qualifies_spec m' →
                 (Poller.m_width m' < Poller.m_width m)%Z)).
Proof.
  induction ms as [| m0 ms IH]; intros image.
  - left. split; [done |]. intros m Hm. by apply not_elem_of_nil in Hm.
  - simpl.
    destruct (pickImage_cases image m0) as [(Hp & Ht & Hw) | (Hp & Hno)];
      rewrite Hp.
    + destruct (IH {| Poller.i_width := Poller.m_width m0;
                      Poller.i_url := Poller.m_url m0 |})
        as [(Hr & Hle) | (i & m & Hi & Hq & Hlt & Hr & Hmax & Hfirst)];
        simpl in *.
      * right. exists 0%nat, m0. split_and!.
        -- done.
        -- split; [done | lia].
        -- lia.
        -- done.
        -- intros m' [-> | Hin]%elem_of_cons Hq'; [lia | by apply Hle].
        -- intros j m' Hj. lia.
      * right. exists (S i), m. split_and!.
        -- done.
        -- done.
        -- lia.
        -- done.
        -- intros m' [-> | Hin]%elem_of_cons Hq'; [lia | by apply Hmax].
        -- intros [| j] m' Hj Hl Hq'; simpl in Hl.
           ++ inversion Hl; subst. lia.
           ++ apply (Hfirst j); [lia | done | done].
    + destruct (IH image)
        as [(Hr & Hle) | (i & m & Hi & Hq & Hlt & Hr & Hmax & Hfirst)].
      * left. split; [done |].
        intros m' [-> | Hin]%elem_of_cons [Ht' Hw'];
          [by apply Hno | by apply Hle].
      * right. exists (S i), m. split_and!.
        -- done.
        -- done.
        -- done.
        -- done.
        -- intros m' [-> | Hin]%elem_of_cons Hq';
             [| by apply Hmax].
           destruct Hq' as [Ht' Hw']. specialize (Hno Ht' Hw'). lia.
        -- intros [| j] m' Hj Hl Hq'; simpl in Hl.
           ++ inversion Hl; subst. destruct Hq' as [Ht' Hw'].
              specialize (Hno Ht' Hw'). lia.
           ++ apply (Hfirst j); [lia | done | done].
Qed.

(** The image of a card is the url of the first widest item among those
    of type ["image"] whose width is above 0 and at most 300. *)
Lemma selectImage_firstWidest (ms : list Poller.Media) :
  firstWidest qualifies ms (Poller.i_url (Poller.selectImage ms)).
Proof.
  unfold Poller.selectImage.
  destruct (foldl_pickImage_spec ms {| Poller.i_width := 0; Poller.i_url := "" |})
    as [(Hr & Hle) | (i & m & Hi & [Ht Hw] & Hlt & Hr & Hmax & Hfirst)];
    rewrite Hr; simpl in *.
  - left. split; [done |]. intros m Hm [Ht [Hlo Hhi]].
    specialize (Hle m Hm (conj Ht Hhi)). lia.
  - right. exists i, m. split_and!.
    + done.
    + split; [done | lia].
    + done.
    + intros m' Hm' [Ht' [_ Hw']]. by apply Hmax.
    + intros j m' Hj Hl [Ht' [_ Hw']]. by apply (Hfirst j).
Qed.

(** C5 (amended). For every envelope, the card list is built from the
    first 20 entries, one card per entry and in order: title and url are
    the entry's, the description is its abstract, the hostname is
    ["nytimes"], and the image is the url of the first widest media item
    of type ["image"] whose width is above 0 and at most 300, or the empty
    string when there is none; an entry with widths 150, 320 and 280 gets
    the image of width 280. *)
Theorem cardsOfResults_spec :
  ∀ results : list Poller.Result,
    length (Poller.cardsOfResults results) = min 20 (length results) ∧
    (∀ i r, results !! i = Some r → (i < 20)%nat →
       ∃ c, Poller.cardsOfResults results !! i = Some c ∧
            Poller.title c = Poller.r_title r ∧
            Poller.url c = Poller.r_url r ∧
            Poller.description c = Poller.r_abstract r ∧
            Poller.hostname c = "nytimes" ∧
            firstWidest qualifies (Poller.r_multimedia r) (Poller.image c)) ∧
    (∀ u1 u2 u3,
       Poller.i_url
         (Poller.selectImage
            [ Poller.mkMedia "image" 150 u1; Poller.mkMedia "image" 320 u2;
              Poller.mkMedia "image" 280 u3 ]) = u3).
Proof.
  intros results. split_and!.
  - unfold Poller.cardsOfResults. by rewrite length_fmap, length_take.
  - intros i r Hr Hi. exists (Poller.toCard r). split.
    + unfold Poller.cardsOfResults.
      by rewrite list_lookup_fmap, lookup_take_lt, Hr.
    + split_and!; try reflexivity. simpl. apply selectImage_firstWidest.
  - reflexivity.
Qed.

Lemma cardsOfResults_spec_witness :
  ∃ c,
    Poller.cardsOfResults
      [ Poller.mkResult "abstract" "title" "https://nyti.ms/a"
          [ Poller.mkMedia "image" 150 "small.jpg";
            Poller.mkMedia "image" 320 "large.jpg";
            Poller.mkMedia "image" 280 "medium.jpg" ] ] !! 0%nat = Some c ∧
    Poller.title c = "title" ∧
    Poller.url c = "https://nyti.ms/a" ∧
    Poller.description c = "abstract" ∧
    Poller.hostname c = "nytimes" ∧
    firstWidest qualifies
      [ Poller.mkMedia "image" 150 "small.jpg";
        Poller.mkMedia "image" 320 "large.jpg";
        Poller.mkMedia "image" 280 "medium.jpg" ]
      (Poller.image c).
Proof.
  destruct (cardsOfResults_spec
              [ Poller.mkResult "abstract" "title" "https://nyti.ms/a"
                  [ Poller.mkMedia "image" 150 "small.jpg";
                    Poller.mkMedia "image" 320 "large.jpg";
                    Poller.mkMedia "image" 280 "medium.jpg" ] ])
    as (_ & Hcard & _).
  assert (0 < 20)%nat as Hlt by lia.
  exact (Hcard 0%nat _ eq_refl Hlt).
Defined.

(** C5 as stated fails: an image of width 0 has type ["image"] and a
    width of at most 300, yet the card's image is the empty string and not
    that item's url, because the search starts from a best of width 0 and
    only a strictly greater width replaces it. *)
Lemma zero_width_image_not_selected :
  ∃ c,
    Poller.cardsOfResults
      [ Poller.mkResult "abstract" "title" "https://nyti.ms/a"
          [ Poller.mkMedia "image" 0 "https://nyti.ms/a.jpg" ] ] = [c] ∧
    Poller.image c = "" ∧
    ¬ firstWidest qualifies_spec
        [ Poller.mkMedia "image" 0 "https://nyti.ms/a.jpg" ]
        (Poller.image c).
Proof.
  eexists. split; [reflexivity |]. split; [reflexivity |]. simpl.
  intros [[_ Hnone] | (i & m & Hi & _ & Hu & _)].
  - apply (Hnone (Poller.mkMedia "image" 0 "https://nyti.ms/a.jpg")).
    + apply list_elem_of_singleton. reflexivity.
    + split; [reflexivity | simpl; lia].
  - destruct i as [| i]; simpl in Hi; [| done].
    inversion Hi; subst. discriminate Hu.
Qed.

(** ** Refresh and publish *)

Section PollerFacts.

Import Poller.

Variable id : string.

Lemma needsFetch_true s now :
  needsFetch s now = true ↔
  cards s = None ∨
  (∃ cs t, cards s = Some cs ∧ lastUpdated s = Some t ∧
           (now - t > 900000)%Z).
Proof.
  unfold needsFetch, UPDATE_INTERVAL.
  destruct (cards s) as [cs |]; [| by split; [left |]].
  destruct (lastUpdated s) as [t |].
  - rewrite Z.gtb_gt. split.
    + intros H. right. exists cs, t. split_and!; [done | done | lia].
    + intros [H | (? & ? & _ & [= <-] & H)]; [done | lia].
  - split; [done |]. intros [H | (? & ? & _ & H & _)]; done.
Qed.

Lemma needsFetch_false s now :
  needsFetch s now = false ↔
  ∃ cs, cards s = Some cs ∧
        ∀ t, lastUpdated s = Some t → (now - t ≤ 900000)%Z.
Proof.
  unfold needsFetch, UPDATE_INTERVAL.
  destruct (cards s) as [cs |]; [| split; [done | by intros (? & ? & _)]].
  destruct (lastUpdated s) as [t |].
  - rewrite Z.gtb_ltb, Z.ltb_ge. split.
    + intros H. exists cs. split; [done |]. intros ? [= <-]. lia.
    + intros (? & _ & H). specialize (H t eq_refl). lia.
  - split; [| done]. intros _. exists cs. split; [done |]. intros ? [=].
Qed.

(** A tick with [update] as the only listener runs [update] once. *)
Lemma step_tick_active s now :
  onSystemTick s = [h_update] →
  step id s (Tick now) = update id ByTick now s.
Proof. intros H. simpl. by rewrite H. Qed.

(** [update] when a fetch is needed: the request goes out and the rest
    waits; nothing else changes. *)
Lemma update_fetch c now s :
  needsFetch s now = true →
  update id c now s =
  {| cards := cards s; lastUpdated := lastUpdated s;
     pending := pending s ++ [c]; requests := S (requests s);
     onSystemTick := onSystemTick s; host := host s |}.
Proof. intros H. unfold update. by rewrite H. Qed.

(** [update] when no fetch is needed: the cached list is published. *)
Lemma update_cached c now s cs :
  needsFetch s now = false → cards s = Some cs →
  update id c now s = afterUpdate c (publish id cs s).
Proof. intros H Hc. unfold update. by rewrite H, Hc. Qed.

(** The request sent last is the last entry of [pending]. *)
Lemma load_last c r now s :
  load id (length (pending s)) r now
    {| cards := cards s; lastUpdated := lastUpdated s;
       pending := pending s ++ [c]; requests := requests s;
       onSystemTick := onSystemTick s; host := host s |} =
  match getCards r with
  | Some cs => resume id c cs now s
  | None => s
  end.
Proof.
  unfold load. simpl.
  rewrite lookup_app_r by lia. rewrite Nat.sub_diag. simpl.
  assert (delete (length (pending s)) (pending s ++ [c]) = pending s) as ->.
  { rewrite delete_middle. apply app_nil_r. }
  destruct (getCards r); destruct s; reflexivity.
Qed.

(** A request that fails changes nothing but the list of requests in
    flight. *)
Lemma load_failed k r now s :
  getCards r = None →
  cards (load id k r now s) = cards s ∧
  lastUpdated (load id k r now s) = lastUpdated s ∧
  requests (load id k r now s) = requests s ∧
  onSystemTick (load id k r now s) = onSystemTick s ∧
  host (load id k r now s) = host s.
Proof.
  intros Hr. unfold load. destruct (pending s !! k); [| done].
  by rewrite Hr.
Qed.

End PollerFacts.

(** C3. A request that ends in a network error or in a response the
    ["load"] listener cannot parse never resolves the promise of
    [getCards]: the cached cards, their timestamp and the registry, hence
    the section's rows, are what they were before.  This holds for a
    failed response to any request in flight and for a whole refresh that
    [update] starts and that then fails. *)
Theorem failed_refresh_keeps_cards :
  ∀ (id : string) (s : Poller.state) (c : Poller.Caller)
    (r : Poller.Response) (now now' : Z),
    r = Poller.RequestFailed ∨ r = Poller.LoadMalformed →
    (∀ k,
       let s' := Poller.step id s (Poller.Load k r now') in
       Poller.cards s' = Poller.cards s ∧
       Poller.lastUpdated s' = Poller.lastUpdated s ∧
       Poller.host s' = Poller.host s ∧
       getProp (SectionsManager.get id (Poller.host s')) "rows"
         = getProp (SectionsManager.get id (Poller.host s)) "rows") ∧
    (Poller.needsFetch s now = true →
       let s2 :=
         Poller.step id (Poller.update id c now s)
           (Poller.Load (length (Poller.pending s)) r now') in
       Poller.cards s2 = Poller.cards s ∧
       Poller.lastUpdated s2 = Poller.lastUpdated s ∧
       Poller.pending s2 = Poller.pending s ∧
       Poller.onSystemTick s2 = Poller.onSystemTick s ∧
       Poller.host s2 = Poller.host s).
Proof.
  intros id s c r now now' Hr.
  assert (Poller.getCards r = None) as Hg by by destruct Hr as [-> | ->].
  split.
  - intros k. cbv zeta. simpl.
    destruct (load_failed id k r now' s Hg) as (Hc & Hl & _ & _ & Hh).
    by rewrite Hc, Hl, Hh.
  - intros Hn. cbv zeta. rewrite (update_fetch id c now s Hn). simpl.
    pose proof (load_last id c r now'
                  {| Poller.cards := Poller.cards s;
                     Poller.lastUpdated := Poller.lastUpdated s;
                     Poller.pending := Poller.pending s;
                     Poller.requests := S (Poller.requests s);
                     Poller.onSystemTick := Poller.onSystemTick s;
                     Poller.host := Poller.host s |}) as Hl.
    simpl in Hl. rewrite Hl, Hg. done.
Qed.

Lemma failed_refresh_keeps_cards_witness :
  Poller.cards
    (Poller.step "ext"
       (Poller.update "ext" Poller.ByTick 1000000 cached_state)
       (Poller.Load 0 Poller.LoadMalformed 1000500))
  = Some [sample_card].
Proof.
  apply (failed_refresh_keeps_cards "ext" cached_state Poller.ByTick
           Poller.LoadMalformed 1000000 1000500).
  - right. reflexivity.
  - reflexivity.
Defined.

(** C4. A tick that reaches the subscribed [update]: when there is no
    cached list, or the cached one is older than 900000 ms, one request
    is sent and, once it resolves, the cache holds the new list and the
    time of resolution and the new list has gone to [addCards] with
    broadcast [true]; when there is a cached list that is not older than
    that, no request is sent, the cache is untouched and the cached list
    goes to [addCards] with broadcast [true]. *)
Theorem tick_refreshes_or_republishes :
  ∀ (id : string) (s : Poller.state) (now : Z),
    Poller.onSystemTick s = [Poller.h_update] →
    ((Poller.cards s = None ∨
      ∃ cs t, Poller.cards s = Some cs ∧ Poller.lastUpdated s = Some t ∧
              (now - t > 900000)%Z) →
       let s1 := Poller.step id s (Poller.Tick now) in
       Poller.requests s1 = S (Poller.requests s) ∧
       Poller.cards s1 = Poller.cards s ∧
       Poller.host s1 = Poller.host s ∧
       ∀ results now',
         let s2 :=
           Poller.step id s1
             (Poller.Load (length (Poller.pending s))
                (Poller.LoadEnvelope results) now') in
         Poller.cards s2 = Some (Poller.cardsOfResults results) ∧
         Poller.lastUpdated s2 = Some now' ∧
         Poller.requests s2 = S (Poller.requests s) ∧
         Poller.host s2 =
           Bridge.addCards id
             (Poller.jsOfCards (Poller.cardsOfResults results)) (Some true)
             (Poller.host s)) ∧
    (∀ cs, Poller.cards s = Some cs →
       (∀ t, Poller.lastUpdated s = Some t → (now - t ≤ 900000)%Z) →
       let s1 := Poller.step id s (Poller.Tick now) in
       Poller.requests s1 = Poller.requests s ∧
       Poller.pending s1 = Poller.pending s ∧
       Poller.cards s1 = Some cs ∧
       Poller.lastUpdated s1 = Poller.lastUpdated s ∧
       Poller.host s1 =
         Bridge.addCards id (Poller.jsOfCards cs) (Some true)
           (Poller.host s)).
Proof.
  intros id s now Hact. split.
  - intros Hstale. apply needsFetch_true in Hstale. cbv zeta.
    rewrite (step_tick_active id s now Hact).
    rewrite (update_fetch id _ now s Hstale). simpl.
    split_and!; try done. intros results now'.
    pose proof (load_last id Poller.ByTick (Poller.LoadEnvelope results) now'
                  {| Poller.cards := Poller.cards s;
                     Poller.lastUpdated := Poller.lastUpdated s;
                     Poller.pending := Poller.pending s;
                     Poller.requests := S (Poller.requests s);
                     Poller.onSystemTick := Poller.onSystemTick s;
                     Poller.host := Poller.host s |}) as Hl.
    simpl in Hl. rewrite Hl. done.
  - intros cs Hcs Hfresh. cbv zeta.
    rewrite (step_tick_active id s now Hact).
    assert (Poller.needsFetch s now = false) as Hn.
    { apply needsFetch_false. by exists cs. }
    rewrite (update_cached id _ now s cs Hn Hcs). done.
Qed.

Lemma tick_refreshes_or_republishes_witness :
  Poller.requests (Poller.step "ext" cached_state (Poller.Tick 600000))
    = 1%nat ∧
  Poller.requests (Poller.step "ext" cached_state (Poller.Tick 900001))
    = 2%nat.
Proof.
  split.
  - destruct (tick_refreshes_or_republishes "ext" cached_state 600000 eq_refl)
      as [_ Hfresh].
    apply (Hfresh [sample_card] eq_refl).
    intros t Ht. injection Ht as <-. lia.
  - destruct (tick_refreshes_or_republishes "ext" cached_state 900001 eq_refl)
      as [Hstale _].
    apply Hstale. right. exists [sample_card], 0%Z.
    split; [reflexivity | split; [reflexivity | lia]].
Defined.

(** C10. [init] runs [update] once and subscribes only after it: when
    [update] has to fetch, one request is sent and the tick listeners stay
    as they were until that request resolves (for good if it fails), and
    on resolution the cards are stored and published and then [update] is
    added to the tick listeners; when [update] does not have to fetch, the
    cached list is published first and [update] is added after that. *)
Theorem init_subscribes_after_refresh :
  ∀ (id : string) (s : Poller.state) (now : Z),
    (Poller.needsFetch s now = true →
       let s1 := Poller.step id s (Poller.Initialized now) in
       Poller.requests s1 = S (Poller.requests s) ∧
       Poller.pending s1 = Poller.pending s ++ [Poller.ByInit] ∧
       Poller.onSystemTick s1 = Poller.onSystemTick s ∧
       Poller.host s1 = Poller.host s ∧
       (∀ r now',
          r = Poller.RequestFailed ∨ r = Poller.LoadMalformed →
          Poller.onSystemTick
            (Poller.step id s1
               (Poller.Load (length (Poller.pending s)) r now'))
          = Poller.onSystemTick s) ∧
       (∀ results now',
          let s2 :=
            Poller.step id s1
              (Poller.Load (length (Poller.pending s))
                 (Poller.LoadEnvelope results) now') in
          Poller.cards s2 = Some (Poller.cardsOfResults results) ∧
          Poller.host s2 =
            Bridge.addCards id
              (Poller.jsOfCards (Poller.cardsOfResults results)) (Some true)
              (Poller.host s) ∧
          Poller.requests s2 = S (Poller.requests s) ∧
          Poller.onSystemTick s2 =
            EventManager.addListener Poller.h_update
              (Poller.onSystemTick s))) ∧
    (Poller.needsFetch s now = false →
       ∃ cs, Poller.cards s = Some cs ∧
             Poller.step id s (Poller.Initialized now) =
             Poller.subscribe (Poller.publish id cs s)).
Proof.
  intros id s now. split.
  - intros Hn. cbv zeta. simpl. unfold Poller.init.
    rewrite (update_fetch id _ now s Hn). simpl.
    pose proof (λ r now', load_last id Poller.ByInit r now'
                  {| Poller.cards := Poller.cards s;
                     Poller.lastUpdated := Poller.lastUpdated s;
                     Poller.pending := Poller.pending s;
                     Poller.requests := S (Poller.requests s);
                     Poller.onSystemTick := Poller.onSystemTick s;
                     Poller.host := Poller.host s |}) as Hl.
    simpl in Hl. split_and!; try done.
    + intros r now' Hr. rewrite Hl. by destruct Hr as [-> | ->].
    + intros results now'. rewrite Hl. done.
  - intros Hn. destruct (proj1 (needsFetch_false s now) Hn) as (cs & Hcs & _).
    exists cs. split; [done |]. simpl. unfold Poller.init.
    by rewrite (update_cached id _ now s cs Hn Hcs).
Qed.

Lemma init_subscribes_after_refresh_witness :
  Poller.onSystemTick
    (Poller.step "ext" (Poller.start registered_host)
       (Poller.Initialized 5)) = [] ∧
  Poller.onSystemTick
    (Poller.step "ext"
       (Poller.step "ext" (Poller.start registered_host)
          (Poller.Initialized 5))
       (Poller.Load 0 (Poller.LoadEnvelope []) 9)) = [Poller.h_update].
Proof.
  destruct (init_subscribes_after_refresh "ext" (Poller.start registered_host)
              5) as [Hfetch _].
  destruct (Hfetch eq_refl) as (_ & _ & Hs & _ & _ & Hok).
  split; [exact Hs |]. apply (Hok [] 9%Z).
Defined.

(** ** The tick subscription *)

Section TickInvariant.

Import Poller.

Variable id : string.

Lemma tickInv_length s : tickInv s → (length (onSystemTick s) ≤ 1)%nat.
Proof.
  intros [Hnd Hall]. destruct (onSystemTick s) as [| a [| b l]]; simpl;
    [lia | lia |].
  assert (a = h_update) as -> by (apply Hall; set_solver).
  assert (b = h_update) as -> by (apply Hall; set_solver).
  apply NoDup_cons in Hnd as [Hn _]. exfalso. apply Hn. set_solver.
Qed.

Lemma tickInv_same s s' :
  onSystemTick s' = onSystemTick s → tickInv s → tickInv s'.
Proof. unfold tickInv. by intros ->. Qed.

Lemma tickInv_subscribe s : tickInv s → tickInv (subscribe s).
Proof.
  intros [Hnd Hall]. split; simpl.
  - by apply addListener_NoDup.
  - intros h [-> | Hh]%addListener_elem_inv; [done | auto].
Qed.

Lemma tickInv_afterUpdate c s : tickInv s → tickInv (afterUpdate c s).
Proof. destruct c; simpl; [done | apply tickInv_subscribe]. Qed.

Lemma tickInv_update c now s : tickInv s → tickInv (update id c now s).
Proof.
  intros Hi. unfold update. destruct (needsFetch s now).
  - by apply (tickInv_same s).
  - destruct (cards s); apply tickInv_afterUpdate; [| done].
    by apply (tickInv_same s).
Qed.

Lemma tickInv_resume c cs now s : tickInv s → tickInv (resume id c cs now s).
Proof.
  intros Hi. unfold resume. apply tickInv_afterUpdate.
  by apply (tickInv_same s).
Qed.

Lemma tickInv_uninit s : tickInv s → tickInv (uninit s).
Proof.
  intros [Hnd Hall]. split; simpl.
  - by apply removeListener_NoDup.
  - intros h [Hh _]%removeListener_elem_inv. auto.
Qed.

Lemma tickInv_load k r now s : tickInv s → tickInv (load id k r now s).
Proof.
  intros Hi. unfold load. destruct (pending s !! k); [| done].
  destruct (getCards r).
  - apply tickInv_resume. by apply (tickInv_same s).
  - by apply (tickInv_same s).
Qed.

Lemma tickInv_runHandler now s h : tickInv s → tickInv (runHandler id now s h).
Proof.
  destruct h; simpl;
    [apply tickInv_update | apply tickInv_update | apply tickInv_uninit].
Qed.

Lemma tickInv_step s ev : tickInv s → tickInv (step id s ev).
Proof.
  intros Hi. destruct ev as [now | | now | k r now]; simpl.
  - by apply tickInv_update.
  - by apply tickInv_uninit.
  - generalize (onSystemTick s). intros hs. revert s Hi.
    induction hs as [| h hs IH]; intros s Hi; simpl; [done |].
    apply IH. by apply tickInv_runHandler.
  - by apply tickInv_load.
Qed.

Lemma tickInv_run evs s : tickInv s → tickInv (run id s evs).
Proof.
  revert s. induction evs as [| ev evs IH]; intros s Hi; simpl; [done |].
  apply IH. by apply tickInv_step.
Qed.

Lemma tickInv_start h : tickInv (start h).
Proof.
  split; simpl; [apply NoDup_nil_2 |].
  intros x Hx. by apply not_elem_of_nil in Hx.
Qed.

End TickInvariant.

(** C8. Whatever events reach the script after it was loaded
    (initialised, uninitialised, ticks, responses), the tick stream never
    holds more than one registration of [update].  After initialised,
    uninitialised, initialised, with the refreshes resolved, it holds
    exactly one: whether each refresh resolves before the next event, or
    the second one needs no request, or both requests resolve only after
    the three events. *)
Theorem tick_subscription_at_most_one :
  ∀ (id : string) (h : SectionsManager.state),
    (∀ evs,
       (length (Poller.onSystemTick (Poller.run id (Poller.start h) evs))
        ≤ 1)%nat) ∧
    (∀ t1 t1' t2 t2' res1 res2,
       Poller.onSystemTick
         (Poller.run id (Poller.start h)
            [ Poller.Initialized t1;
              Poller.Load 0 (Poller.LoadEnvelope res1) t1';
              Poller.Uninitialized;
              Poller.Initialized t2;
              Poller.Load 0 (Poller.LoadEnvelope res2) t2' ])
       = [Poller.h_update]) ∧
    (∀ t1 t1' t2 res1,
       (t2 - t1' ≤ 900000)%Z →
       Poller.onSystemTick
         (Poller.run id (Poller.start h)
            [ Poller.Initialized t1;
              Poller.Load 0 (Poller.LoadEnvelope res1) t1';
              Poller.Uninitialized;
              Poller.Initialized t2 ])
       = [Poller.h_update]) ∧
    (∀ t1 t1' t2 t2' res1 res2,
       Poller.onSystemTick
         (Poller.run id (Poller.start h)
            [ Poller.Initialized t1;
              Poller.Uninitialized;
              Poller.Initialized t2;
              Poller.Load 0 (Poller.LoadEnvelope res1) t1';
              Poller.Load 0 (Poller.LoadEnvelope res2) t2' ])
       = [Poller.h_update]).
Proof.
  intros id h. split_and!.
  - intros evs. apply tickInv_length, tickInv_run, tickInv_start.
  - intros t1 t1' t2 t2' res1 res2.
    unfold Poller.run. simpl.
    unfold Poller.init, Poller.update, Poller.needsFetch. simpl.
    destruct (t2 - t1' >? Poller.UPDATE_INTERVAL)%Z; reflexivity.
  - intros t1 t1' t2 res1 Hfresh.
    unfold Poller.run. simpl.
    unfold Poller.init, Poller.update, Poller.needsFetch. simpl.
    assert ((t2 - t1' >? Poller.UPDATE_INTERVAL)%Z = false) as ->;
      [| reflexivity].
    unfold Poller.UPDATE_INTERVAL. rewrite Z.gtb_ltb. apply Z.ltb_ge. lia.
  - intros t1 t1' t2 t2' res1 res2. reflexivity.
Qed.

Lemma tick_subscription_at_most_one_witness :
  Poller.onSystemTick
    (Poller.run "ext" (Poller.start registered_host)
       [ Poller.Initialized 0;
         Poller.Load 0 (Poller.LoadEnvelope []) 10;
         Poller.Uninitialized;
         Poller.Initialized 20 ])
  = [Poller.h_update].
Proof.
  destruct (tick_subscription_at_most_one "ext" registered_host)
    as (_ & _ & Hfresh & _).
  apply (Hfresh 0%Z 10%Z 20%Z []). lia.
Defined.

(** * Further properties of the bridge *)

(** ** Construction *)

(** X1. Every property other than [icon] of the options the constructor
    returns is read off the manifest when the manifest has it, with
    [null] turned into [undefined] and no validation of names or values,
    and off the defaults otherwise. *)
Theorem API_constructor_merge :
  ∀ (id : string) (getURL : string → string)
    (O opts : gmap string jsval),
    Bridge.API_constructor id getURL O = Some opts →
    ∀ k, k ≠ "icon" →
      opts !! k =
      match O !! k with
      | Some v => Some (Bridge.nullToUndefined v)
      | None => Bridge.defaultOptions id !! k
      end.
Proof.
  intros id getURL O opts Hc k Hk.
  by apply (API_constructor_lookup id getURL O opts k).
Qed.

Lemma API_constructor_merge_witness :
  ∃ opts,
    Bridge.API_constructor "ext" (String.append "moz-extension://ext/")
      {[ "maxRows" := JNum 3; "colour" := JStr "red" ]} = Some opts ∧
    opts !! "maxRows" = Some (JNum 3) ∧
    opts !! "colour" = Some (JStr "red") ∧
    opts !! "title" = Some (JStr "ext").
Proof.
  eexists. split; [reflexivity |].
  pose proof (API_constructor_merge "ext"
                (String.append "moz-extension://ext/")
                {[ "maxRows" := JNum 3; "colour" := JStr "red" ]} _ eq_refl)
    as H.
  split; [| split].
  - apply (H "maxRows"). discriminate.
  - apply (H "colour"). discriminate.
  - apply (H "title"). discriminate.
Defined.

Lemma merged_icon id (O : gmap string jsval) :
  getProp
    (Object_assign (Bridge.defaultOptions id)
       (Bridge.nullToUndefined <$> Object_assign ∅ O)) "icon" =
  match O !! "icon" with
  | Some v => Bridge.nullToUndefined v
  | None => JUndefined
  end.
Proof.
  unfold getProp. rewrite merged_lookup.
  by destruct (O !! "icon").
Qed.

(** X2. A manifest whose [icon] is a string always yields options, and
    their [icon] is that string when it is empty or already starts with
    ["moz-extension://"], and [getURL] of it otherwise. *)
Theorem API_constructor_icon_resolved :
  ∀ (id : string) (getURL : string → string) (O : gmap string jsval)
    (s : string),
    O !! "icon" = Some (JStr s) →
    ∃ opts,
      Bridge.API_constructor id getURL O = Some opts ∧
      getProp opts "icon" =
      JStr (if String.eqb s "" || startsWith s "moz-extension://"
            then s else getURL s).
Proof.
  intros id getURL O s HO. unfold Bridge.API_constructor. cbv zeta.
  rewrite merged_icon, HO. simpl.
  destruct (String.eqb s "") eqn:He; simpl.
  - eexists. split; [reflexivity |]. by rewrite merged_icon, HO.
  - destruct (startsWith s "moz-extension://") eqn:Hp; simpl.
    + eexists. split; [reflexivity |]. by rewrite merged_icon, HO.
    + eexists. split; [reflexivity |]. apply getProp_setProp_eq.
Qed.

Lemma API_constructor_icon_resolved_witness :
  ∃ opts,
    Bridge.API_constructor "ext" (String.append "moz-extension://ext/")
      {[ "icon" := JStr "foo.png" ]} = Some opts ∧
    getProp opts "icon" = JStr "moz-extension://ext/foo.png".
Proof.
  apply (API_constructor_icon_resolved "ext"
           (String.append "moz-extension://ext/")
           {[ "icon" := JStr "foo.png" ]} "foo.png").
  reflexivity.
Defined.

(** X3. The constructor fails, with the [TypeError] of calling a missing
    [startsWith], exactly when the manifest's [icon] is truthy and not a
    string; a missing, [null], [false], [0] or empty [icon] never makes
    it fail. *)
Theorem API_constructor_fails_iff :
  ∀ (id : string) (getURL : string → string) (O : gmap string jsval),
    Bridge.API_constructor id getURL O = None ↔
    ∃ v, O !! "icon" = Some v ∧ truthy v = true ∧ ∀ s, v ≠ JStr s.
Proof.
  intros id getURL O. unfold Bridge.API_constructor. cbv zeta.
  rewrite merged_icon. destruct (O !! "icon") as [v |]; simpl.
  - destruct v as [| | b | n | s | items | props]; simpl.
    + split; [done | by intros (? & [= <-] & ? & _)].
    + split; [done | by intros (? & [= <-] & ? & _)].
    + destruct b.
      * split; [| done]. intros _. exists (JBool true). by split_and!.
      * split; [done | by intros (? & [= <-] & ? & _)].
    + destruct (Z.eqb n 0) eqn:Hn; simpl.
      * split; [done |]. intros (? & [= <-] & Ht & _). simpl in Ht.
        by rewrite Hn in Ht.
      * split; [| done]. intros _. exists (JNum n). split_and!; try done.
        simpl. by rewrite Hn.
    + split.
      * destruct (negb (String.eqb s "")); [| done].
        by destruct (negb (startsWith s "moz-extension://")).
      * intros (? & [= <-] & _ & Hs). by destruct (Hs s).
    + split; [| done]. intros _. exists (JArr items). by split_and!.
    + split; [| done]. intros _. exists (JObj props). by split_and!.
  - split; [done | by intros (? & ? & _)].
Qed.

(** ** [enable], [disable] and the callbacks waiting for the registry *)

Section EnableFacts.

Import SectionsManager.
Import Bridge.

Variable id : string.

Lemma writtenField_not_enabled s : writtenField s ≠ "enabled".
Proof. by destruct s. Qed.

Lemma enableBody_options w : options (enableBody id w) = options w.
Proof. reflexivity. Qed.

Lemma enableBody_section w :
  sections (sm (enableBody id w)) !! id
  = Some (<["enabled" := JBool true]> (options w)).
Proof.
  unfold enableBody, enableSection, SectionsManager.updateSection, addSection.
  simpl. rewrite lookup_insert_eq. simpl. rewrite lookup_insert_eq.
  unfold Object_assign. by rewrite <- insert_union_singleton_l.
Qed.

Lemma enableBody_calls w :
  calls (sm (enableBody id w)) =
  calls (sm w) ++
    [ CallAddSection id (options w);
      CallUpdateSection id {[ "enabled" := JBool true ]} true;
      CallEnableSection id ].
Proof.
  unfold enableBody, enableSection, SectionsManager.updateSection, addSection.
  simpl. rewrite lookup_insert_eq. simpl.
  by rewrite <- !app_assoc.
Qed.

Lemma run_callback_initialized cb w :
  initialized (sm (run_callback id cb w)) = initialized (sm w).
Proof.
  destruct cb; simpl.
  - unfold updateSection. destruct (has id (sm w)); [| done]. simpl.
    unfold SectionsManager.updateSection.
    by destruct (sections (sm w) !! id).
  - unfold enableSection, SectionsManager.updateSection, addSection. simpl.
    by rewrite lookup_insert_eq.
Qed.

Lemma enableBody_initialized w :
  initialized (sm (enableBody id w)) = initialized (sm w).
Proof. apply (run_callback_initialized CbEnable). Qed.

Lemma updateSection_initialized w :
  initialized (sm (updateSection id w)) = initialized (sm w).
Proof. apply (run_callback_initialized CbUpdateSection). Qed.

Lemma updateSection_options w : options (updateSection id w) = options w.
Proof. apply (run_callback_options id CbUpdateSection). Qed.

Lemma run_queue_options q w :
  options (foldl (λ w' c, run_callback id c w') w q) = options w.
Proof.
  revert w. induction q as [| c q IH]; intros w; simpl; [done |].
  by rewrite IH, run_callback_options.
Qed.

Lemma run_queue_initialized q w :
  initialized (sm (foldl (λ w' c, run_callback id c w') w q))
  = initialized (sm w).
Proof.
  revert w. induction q as [| c q IH]; intros w; simpl; [done |].
  by rewrite IH, run_callback_initialized.
Qed.

Lemma initListener_after_enableBody w :
  initListener id (sm (enableBody id w)) = true.
Proof.
  unfold initListener, has, get. rewrite enableBody_section. simpl.
  unfold getProp. by rewrite lookup_insert_eq.
Qed.

End EnableFacts.

(** X4. [enable()] on an initialised registry runs at once instead of
    waiting: afterwards the section is registered and marked enabled,
    every other property of it reads as in the bridge's options, nothing
    was added to the callbacks waiting for initialisation, and a listener
    added to [onInitialized] afterwards is fired within [addListener]. *)
Theorem enable_registers_and_catches_up :
  ∀ (id : string) (w : Bridge.world),
    SectionsManager.initialized (Bridge.sm w) = true →
    let w' := Bridge.enable id w in
    SectionsManager.has id (Bridge.sm w') = true ∧
    truthy (getProp (SectionsManager.get id (Bridge.sm w')) "enabled")
      = true ∧
    (∀ k, k ≠ "enabled" →
       getProp (SectionsManager.get id (Bridge.sm w')) k
       = getProp (Bridge.options w) k) ∧
    SectionsManager.onceInit (Bridge.sm w')
      = SectionsManager.onceInit (Bridge.sm w) ∧
    ∀ cb e, cb ∉ Bridge.listeners e →
      Bridge.fired (Bridge.onInitialized_addListener id cb (Bridge.sm w') e)
      = Bridge.fired e ++ [cb].
Proof.
  intros id w Hi. cbv zeta. unfold Bridge.enable, Bridge.onceInitialized.
  rewrite Hi. simpl Bridge.run_callback. split_and!.
  - unfold SectionsManager.has. by rewrite enableBody_section.
  - unfold SectionsManager.get, getProp. rewrite enableBody_section.
    cbn [from_option]. unfold Datatypes.id. by rewrite lookup_insert_eq.
  - intros k Hk. unfold SectionsManager.get, getProp.
    rewrite enableBody_section. cbn [from_option]. unfold Datatypes.id.
    by rewrite lookup_insert_ne.
  - unfold Bridge.enableBody, SectionsManager.enableSection,
      SectionsManager.updateSection, SectionsManager.addSection. simpl.
    by rewrite lookup_insert_eq.
  - intros cb e Hcb. unfold Bridge.onInitialized_addListener.
    destruct (decide (cb ∈ Bridge.listeners e)); [done |].
    rewrite enableBody_initialized, Hi, initListener_after_enableBody. done.
Qed.

Lemma enable_registers_and_catches_up_witness :
  Bridge.fired
    (Bridge.onInitialized_addListener "ext" 3%nat
       (Bridge.sm
          (Bridge.enable "ext"
             {| Bridge.options := Bridge.defaultOptions "ext";
                Bridge.sm :=
                  {| SectionsManager.initialized := true;
                     SectionsManager.sections := ∅;
                     SectionsManager.onceInit := [];
                     SectionsManager.calls := [] |} |}))
       {| Bridge.listeners := []; Bridge.fired := [] |})
  = [3%nat].
Proof.
  destruct (enable_registers_and_catches_up "ext"
              {| Bridge.options := Bridge.defaultOptions "ext";
                 Bridge.sm :=
                   {| SectionsManager.initialized := true;
                      SectionsManager.sections := ∅;
                      SectionsManager.onceInit := [];
                      SectionsManager.calls := [] |} |} eq_refl)
    as (_ & _ & _ & _ & Hfire).
  apply (Hfire 3%nat {| Bridge.listeners := []; Bridge.fired := [] |}).
  apply not_elem_of_nil.
Defined.

(** X5. An option set while the registry is not yet initialised is not
    lost: whether the setter comes before or after [enable()], and
    whatever was queued before them, once the registry initialises the
    section is registered and holds the value under the property the
    setter assigns. *)
Theorem setter_before_initialisation_reaches_section :
  ∀ (id : string) (s : Bridge.Setter) (v : jsval) (w : Bridge.world),
    SectionsManager.initialized (Bridge.sm w) = false →
    let w1 :=
      Bridge.hostInit id (Bridge.enable id (Bridge.callSetter id s v w)) in
    let w2 :=
      Bridge.hostInit id (Bridge.callSetter id s v (Bridge.enable id w)) in
    (SectionsManager.initialized (Bridge.sm w1) = true ∧
     SectionsManager.has id (Bridge.sm w1) = true ∧
     getProp (SectionsManager.get id (Bridge.sm w1)) (Bridge.writtenField s)
       = v) ∧
    (SectionsManager.initialized (Bridge.sm w2) = true ∧
     SectionsManager.has id (Bridge.sm w2) = true ∧
     getProp (SectionsManager.get id (Bridge.sm w2)) (Bridge.writtenField s)
       = v).
Proof.
  intros id s v w Hi. cbv zeta.
  assert (∀ w0, Bridge.callSetter id s v w0 =
                Bridge.onceInitialized id SectionsManager.CbUpdateSection
                  (Bridge.writeOption (Bridge.writtenField s) v w0))
    as Hs by by destruct s.
  pose proof (writtenField_not_enabled s) as Hne.
  split.
  - rewrite Hs. unfold Bridge.enable, Bridge.onceInitialized. simpl.
    rewrite Hi. simpl. unfold Bridge.hostInit. simpl.
    rewrite <- app_assoc. simpl. rewrite foldl_app. cbn [foldl Bridge.run_callback].
    set (w0 := foldl _ _ _).
    assert (Bridge.options (Bridge.updateSection id w0)
            = <[Bridge.writtenField s := v]> (Bridge.options w)) as Ho.
    { rewrite updateSection_options. subst w0.
      by rewrite run_queue_options. }
    split_and!.
    + rewrite enableBody_initialized, updateSection_initialized. subst w0.
      by rewrite run_queue_initialized.
    + unfold SectionsManager.has. by rewrite enableBody_section.
    + unfold SectionsManager.get. rewrite enableBody_section, Ho. simpl.
      unfold getProp. rewrite lookup_insert_ne by done.
      by rewrite lookup_insert_eq.
  - rewrite Hs. unfold Bridge.enable, Bridge.onceInitialized. simpl.
    rewrite Hi. simpl. unfold Bridge.hostInit. simpl.
    rewrite <- app_assoc. simpl. rewrite foldl_app. cbn [foldl Bridge.run_callback].
    set (w0 := foldl _ _ _).
    assert (Bridge.options w0
            = <[Bridge.writtenField s := v]> (Bridge.options w)) as Ho.
    { subst w0. by rewrite run_queue_options. }
    pose proof (enableBody_section id w0) as Hsec.
    rewrite (updateSection_present id _ _ Hsec).
    cbn [Bridge.sm Bridge.options SectionsManager.initialized
         SectionsManager.sections].
    split_and!.
    + rewrite enableBody_initialized. subst w0.
      by rewrite run_queue_initialized.
    + unfold SectionsManager.has.
      cbn [SectionsManager.sections]. by rewrite lookup_insert_eq.
    + unfold SectionsManager.get, getProp.
      cbn [SectionsManager.sections]. rewrite lookup_insert_eq.
      cbn [from_option]. unfold Datatypes.id.
      rewrite lookup_Object_assign, enableBody_options, Ho.
      by rewrite lookup_insert_eq.
Qed.

Lemma setter_before_initialisation_reaches_section_witness :
  getProp
    (SectionsManager.get "ext"
       (Bridge.sm
          (Bridge.hostInit "ext"
             (Bridge.enable "ext"
                (Bridge.callSetter "ext" Bridge.SetTitle (JStr "News")
                   {| Bridge.options := Bridge.defaultOptions "ext";
                      Bridge.sm := SectionsManager.fresh |})))))
    "title" = JStr "News".
Proof.
  apply (setter_before_initialisation_reaches_section "ext" Bridge.SetTitle
           (JStr "News")
           {| Bridge.options := Bridge.defaultOptions "ext";
              Bridge.sm := SectionsManager.fresh |} eq_refl).
Defined.

Lemma callSetter_onceInitialized id s v w :
  Bridge.callSetter id s v w =
  Bridge.onceInitialized id SectionsManager.CbUpdateSection
    (Bridge.writeOption (Bridge.writtenField s) v w).
Proof. by destruct s. Qed.

(** X6. [disable()] and [onShutdown()] are the same removal.  After it
    the section is not registered, the sections of other extensions are
    as before, and [addCards] is dropped without touching the registry.
    A setter called after it leaves the registry untouched when the
    registry is initialised; when it is not, the setter changes no
    section and makes no call, and its update only joins the callbacks
    waiting for the initialisation. *)
Theorem disable_drops_later_updates :
  ∀ (id : string) (w : Bridge.world),
    let w' := Bridge.disable id w in
    Bridge.onShutdown id w = w' ∧
    Bridge.options w' = Bridge.options w ∧
    SectionsManager.has id (Bridge.sm w') = false ∧
    (∀ other, other ≠ id →
       SectionsManager.sections (Bridge.sm w') !! other
       = SectionsManager.sections (Bridge.sm w) !! other) ∧
    (∀ cards b, Bridge.addCards id cards b (Bridge.sm w') = Bridge.sm w') ∧
    (SectionsManager.initialized (Bridge.sm w) = true →
     ∀ s v, Bridge.sm (Bridge.callSetter id s v w') = Bridge.sm w') ∧
    (SectionsManager.initialized (Bridge.sm w) = false →
     ∀ s v,
       SectionsManager.sections (Bridge.sm (Bridge.callSetter id s v w'))
         = SectionsManager.sections (Bridge.sm w') ∧
       SectionsManager.calls (Bridge.sm (Bridge.callSetter id s v w'))
         = SectionsManager.calls (Bridge.sm w') ∧
       SectionsManager.initialized (Bridge.sm (Bridge.callSetter id s v w'))
         = false ∧
       SectionsManager.onceInit (Bridge.sm (Bridge.callSetter id s v w'))
         = SectionsManager.onceInit (Bridge.sm w')
             ++ [SectionsManager.CbUpdateSection]).
Proof.
  intros id w. cbv zeta.
  assert (SectionsManager.has id (Bridge.sm (Bridge.disable id w)) = false)
    as Hhas.
  { unfold SectionsManager.has. simpl. by rewrite lookup_delete_eq. }
  split_and!.
  - reflexivity.
  - reflexivity.
  - exact Hhas.
  - intros other Hne. simpl. by rewrite lookup_delete_ne.
  - intros cards b. unfold Bridge.addCards. by rewrite Hhas.
  - intros Hi s v. rewrite callSetter_onceInitialized.
    unfold Bridge.onceInitialized.
    cbn [Bridge.sm Bridge.writeOption Bridge.disable
         SectionsManager.initialized SectionsManager.removeSection].
    rewrite Hi. cbn [Bridge.run_callback].
    rewrite updateSection_absent; [done |]. exact Hhas.
  - intros Hi s v. rewrite callSetter_onceInitialized.
    unfold Bridge.onceInitialized.
    cbn [Bridge.sm Bridge.writeOption Bridge.disable
         SectionsManager.initialized SectionsManager.removeSection].
    rewrite Hi. done.
Qed.

Lemma disable_drops_later_updates_witness :
  Bridge.sm
    (Bridge.callSetter "ext" Bridge.SetTitle (JStr "News")
       (Bridge.disable "ext" registered_world))
  = Bridge.sm (Bridge.disable "ext" registered_world) ∧
  SectionsManager.onceInit
    (Bridge.sm
       (Bridge.callSetter "ext" Bridge.SetTitle (JStr "News")
          (Bridge.disable "ext"
             {| Bridge.options := Bridge.defaultOptions "ext";
                Bridge.sm := SectionsManager.fresh |})))
  = [SectionsManager.CbUpdateSection].
Proof.
  split.
  - destruct (disable_drops_later_updates "ext" registered_world)
      as (_ & _ & _ & _ & _ & Hset & _).
    apply (Hset eq_refl Bridge.SetTitle (JStr "News")).
  - destruct (disable_drops_later_updates "ext"
                {| Bridge.options := Bridge.defaultOptions "ext";
                   Bridge.sm := SectionsManager.fresh |})
      as (_ & _ & _ & _ & _ & _ & Hq).
    apply (Hq eq_refl Bridge.SetTitle (JStr "News")).
Defined.

(** X7. [disable()] called before the registry is initialised does not
    cancel an [enable()] that is waiting: when the registry initialises,
    the section is added and enabled all the same. *)
Theorem disable_keeps_queued_enable :
  ∀ (id : string) (w : Bridge.world),
    SectionsManager.initialized (Bridge.sm w) = false →
    let w' := Bridge.hostInit id (Bridge.disable id (Bridge.enable id w)) in
    SectionsManager.initialized (Bridge.sm w') = true ∧
    SectionsManager.has id (Bridge.sm w') = true ∧
    getProp (SectionsManager.get id (Bridge.sm w')) "enabled" = JBool true.
Proof.
  intros id w Hi. cbv zeta.
  unfold Bridge.enable, Bridge.onceInitialized. rewrite Hi.
  unfold Bridge.hostInit, Bridge.disable.
  cbn [Bridge.sm Bridge.options SectionsManager.onceInit
       SectionsManager.removeSection SectionsManager.sections
       SectionsManager.calls].
  rewrite foldl_app. cbn [foldl Bridge.run_callback].
  set (w0 := foldl _ _ _). split_and!.
  - rewrite enableBody_initialized. subst w0.
    by rewrite run_queue_initialized.
  - unfold SectionsManager.has. by rewrite enableBody_section.
  - unfold SectionsManager.get, getProp. rewrite enableBody_section.
    cbn [from_option]. unfold Datatypes.id. by rewrite lookup_insert_eq.
Qed.

Lemma disable_keeps_queued_enable_witness :
  SectionsManager.has "ext"
    (Bridge.sm
       (Bridge.hostInit "ext"
          (Bridge.disable "ext"
             (Bridge.enable "ext"
                {| Bridge.options := Bridge.defaultOptions "ext";
                   Bridge.sm := SectionsManager.fresh |}))))
  = true.
Proof.
  apply (disable_keeps_queued_enable "ext"
           {| Bridge.options := Bridge.defaultOptions "ext";
              Bridge.sm := SectionsManager.fresh |} eq_refl).
Defined.

(** ** [onUninitialized] and the action events *)

Lemma emit_uninit id e :
  Bridge.onUninitialized_emit id SectionsManager.UNINIT e =
  {| Bridge.listeners := Bridge.listeners e;
     Bridge.fired := Bridge.fired e ++ Bridge.listeners e |}.
Proof. unfold Bridge.onUninitialized_emit. simpl. apply fire_all_fold. Qed.

Lemma emit_disable_own id e :
  Bridge.onUninitialized_emit id (SectionsManager.DISABLE_SECTION id) e =
  {| Bridge.listeners := Bridge.listeners e;
     Bridge.fired := Bridge.fired e ++ Bridge.listeners e |}.
Proof.
  unfold Bridge.onUninitialized_emit. simpl.
  unfold Bridge.disabledListener. rewrite String.eqb_refl.
  apply fire_all_fold.
Qed.

Lemma emit_disable_other id other e :
  other ≠ id →
  Bridge.onUninitialized_emit id (SectionsManager.DISABLE_SECTION other) e
  = e.
Proof.
  intros Hne. unfold Bridge.onUninitialized_emit. simpl.
  unfold Bridge.disabledListener.
  apply String.eqb_neq in Hne. rewrite Hne. apply fire_none_fold.
Qed.

(** X8. A listener of [onUninitialized] is never fired by [addListener]
    itself.  Once registered it gets exactly one [fire.async()] for every
    [UNINIT] event, whether or not the section is registered, and
    exactly one for every [DISABLE_SECTION] event naming this section;
    [DISABLE_SECTION] for another section, [INIT], [ENABLE_SECTION] and
    dispatched actions give it none. *)
Theorem onUninitialized_fires_once :
  ∀ (id : string) (cb : nat) (e : Bridge.subscriptions),
    NoDup (Bridge.listeners e) →
    Bridge.fired (Bridge.onUninitialized_addListener cb e) = Bridge.fired e ∧
    cb ∈ Bridge.listeners (Bridge.onUninitialized_addListener cb e) ∧
    NoDup (Bridge.listeners (Bridge.onUninitialized_addListener cb e)) ∧
    (cb ∈ Bridge.listeners e →
       fireCount cb (Bridge.onUninitialized_emit id SectionsManager.UNINIT e)
         = S (fireCount cb e) ∧
       fireCount cb
         (Bridge.onUninitialized_emit id
            (SectionsManager.DISABLE_SECTION id) e)
         = S (fireCount cb e)) ∧
    (∀ ev,
       (∀ other, ev = SectionsManager.DISABLE_SECTION other → other ≠ id) →
       ev ≠ SectionsManager.UNINIT →
       Bridge.onUninitialized_emit id ev e = e).
Proof.
  intros id cb e Hnd. split_and!.
  - reflexivity.
  - apply addListener_elem.
  - by apply addListener_NoDup.
  - intros Hcb. split.
    + rewrite emit_uninit. unfold fireCount. simpl.
      rewrite filter_app, length_app, (count_NoDup_elem cb _ Hnd Hcb). lia.
    + rewrite emit_disable_own. unfold fireCount. simpl.
      rewrite filter_app, length_app, (count_NoDup_elem cb _ Hnd Hcb). lia.
  - intros ev Hother Hun. destruct ev as [| | s | s | t d].
    + unfold Bridge.onUninitialized_emit. simpl. apply fire_none_fold.
    + done.
    + unfold Bridge.onUninitialized_emit. simpl. apply fire_none_fold.
    + apply emit_disable_other. by apply Hother.
    + unfold Bridge.onUninitialized_emit. simpl. apply fire_none_fold.
Qed.

Lemma onUninitialized_fires_once_witness :
  fireCount 4%nat
    (Bridge.onUninitialized_emit "ext" SectionsManager.UNINIT
       {| Bridge.listeners := [4%nat]; Bridge.fired := [] |}) = 1%nat.
Proof.
  destruct (onUninitialized_fires_once "ext" 4%nat
              {| Bridge.listeners := [4%nat]; Bridge.fired := [] |}
              (NoDup_singleton 4%nat)) as (_ & _ & _ & Hfire & _).
  apply Hfire. apply list_elem_of_singleton. reflexivity.
Defined.

(** X9. The loop at the end of [getAPI] gives [newTabSection] the two
    events [onSystemTick] and [onNewTabOpened]; each fires for a
    dispatched action exactly when the action's type is the one it was
    made for, passing the payload on unchanged, so no dispatched action
    reaches both, and no event of another kind reaches either. *)
Theorem action_events_route_by_type :
  (∀ key action,
     (key, action) ∈ Bridge.actionEvents ↔
     (key = "onSystemTick" ∧ action = "SYSTEM_TICK") ∨
     (key = "onNewTabOpened" ∧ action = "NEW_TAB_LOAD")) ∧
  (∀ action ev d,
     Bridge.actionListener action ev = Some d ↔
     ev = SectionsManager.ACTION_DISPATCHED action d) ∧
  (∀ ev key1 action1 key2 action2 d1 d2,
     (key1, action1) ∈ Bridge.actionEvents →
     (key2, action2) ∈ Bridge.actionEvents →
     Bridge.actionListener action1 ev = Some d1 →
     Bridge.actionListener action2 ev = Some d2 →
     key1 = key2 ∧ d1 = d2).
Proof.
  assert (∀ key action,
     (key, action) ∈ Bridge.actionEvents ↔
     (key = "onSystemTick" ∧ action = "SYSTEM_TICK") ∨
     (key = "onNewTabOpened" ∧ action = "NEW_TAB_LOAD")) as Hkeys.
  { intros key action.
    change Bridge.actionEvents
      with [ ("onSystemTick", "SYSTEM_TICK");
             ("onNewTabOpened", "NEW_TAB_LOAD") ].
    rewrite !elem_of_cons, elem_of_nil. split.
    - intros [[= -> ->] | [[= -> ->] | []]]; [by left | by right].
    - intros [[-> ->] | [-> ->]]; [by left | by right; left]. }
  assert (∀ action ev d,
     Bridge.actionListener action ev = Some d ↔
     ev = SectionsManager.ACTION_DISPATCHED action d) as Hfire.
  { intros action ev d. destruct ev as [| | s | s | t data]; simpl;
      try (split; [done | by intros [=]]).
    destruct (String.eqb_spec t action) as [-> | Hne].
    - split; [by intros [= ->] | by intros [= ->]].
    - split; [done | intros [= -> ->]; done]. }
  split_and!; [exact Hkeys | exact Hfire |].
  intros ev key1 action1 key2 action2 d1 d2 H1 H2 Hf1 Hf2.
  apply Hfire in Hf1, Hf2. subst ev. injection Hf2 as -> ->.
  apply Hkeys in H1, H2.
  destruct H1 as [[-> ->] | [-> ->]], H2 as [[-> He] | [-> He]];
    try done; discriminate He.
Qed.

Lemma action_events_route_by_type_witness :
  Bridge.actionListener "SYSTEM_TICK"
    (SectionsManager.ACTION_DISPATCHED "SYSTEM_TICK" (JNum 1))
  = Some (JNum 1).
Proof.
  destruct action_events_route_by_type as (_ & Hfire & _).
  apply Hfire. reflexivity.
Defined.

(** * Further properties of the poller *)

(** ** Image selection *)

#[local] Instance qualifies_dec (m : Poller.Media) : Decision (qualifies m).
Proof. unfold qualifies. apply _. Defined.

Lemma pickImage_unqualified image m :
  (0 ≤ Poller.i_width image)%Z → ¬ qualifies m →
  Poller.pickImage image m = image.
Proof.
  intros Hw Hq.
  destruct (pickImage_cases image m) as [(_ & Ht & Hlt) | [Hp _]]; [| done].
  exfalso. apply Hq. split; [done | lia].
Qed.

Lemma pickImage_width_nonneg image m :
  (0 ≤ Poller.i_width image)%Z →
  (0 ≤ Poller.i_width (Poller.pickImage image m))%Z.
Proof.
  intros Hw.
  destruct (pickImage_cases image m) as [(Hp & _ & Hlt) | [Hp _]];
    rewrite Hp; simpl; lia.
Qed.

Lemma foldl_pickImage_filter (ms : list Poller.Media) :
  ∀ image, (0 ≤ Poller.i_width image)%Z →
    foldl Poller.pickImage image ms
    = foldl Poller.pickImage image (filter qualifies ms).
Proof.
  induction ms as [| m ms IH]; intros image Hw; [done |].
  rewrite filter_cons. simpl. case_decide as Hq.
  - simpl. apply IH. by apply pickImage_width_nonneg.
  - rewrite (pickImage_unqualified image m Hw Hq). by apply IH.
Qed.

(** X10. Media items that are not of type ["image"], that are wider than
    300 or whose width is not above 0 have no influence on the image of a
    card: dropping them from [multimedia], wherever they stand, gives the
    same selection, and with none of the other kind left the image is the
    empty string. *)
Theorem selectImage_ignores_unqualified :
  ∀ ms : list Poller.Media,
    Poller.selectImage ms = Poller.selectImage (filter qualifies ms) ∧
    (filter qualifies ms = [] →
       Poller.i_url (Poller.selectImage ms) = "").
Proof.
  intros ms.
  assert (Poller.selectImage ms = Poller.selectImage (filter qualifies ms))
    as Heq.
  { unfold Poller.selectImage. apply foldl_pickImage_filter. simpl. lia. }
  split; [exact Heq |]. intros Hnil. by rewrite Heq, Hnil.
Qed.

Lemma selectImage_ignores_unqualified_witness :
  Poller.i_url
    (Poller.selectImage
       [ Poller.mkMedia "video" 200 "clip.mp4";
         Poller.mkMedia "image" 640 "huge.jpg" ]) = "".
Proof.
  apply (selectImage_ignores_unqualified
           [ Poller.mkMedia "video" 200 "clip.mp4";
             Poller.mkMedia "image" 640 "huge.jpg" ]).
  reflexivity.
Defined.

(** ** Runs of the poller *)

Section RunFacts.

Import Poller.

Variable id : string.

Lemma resume_fields c cs now s :
  cards (resume id c cs now s) = Some cs ∧
  lastUpdated (resume id c cs now s) = Some now ∧
  pending (resume id c cs now s) = pending s ∧
  requests (resume id c cs now s) = requests s ∧
  host (resume id c cs now s)
    = Bridge.addCards id (jsOfCards cs) (Some true) (host s).
Proof. by destruct c. Qed.

Lemma afterUpdate_fields c s :
  cards (afterUpdate c s) = cards s ∧
  lastUpdated (afterUpdate c s) = lastUpdated s ∧
  pending (afterUpdate c s) = pending s ∧
  requests (afterUpdate c s) = requests s ∧
  host (afterUpdate c s) = host s.
Proof. by destruct c. Qed.

(** A tick while nothing is subscribed does nothing. *)
Lemma step_tick_idle s now : onSystemTick s = [] → step id s (Tick now) = s.
Proof. intros H. simpl. by rewrite H. Qed.

Lemma needsFetch_ext s s' now :
  cards s' = cards s → lastUpdated s' = lastUpdated s →
  needsFetch s' now = needsFetch s now.
Proof. intros Hc Hl. unfold needsFetch. by rewrite Hc, Hl. Qed.

Lemma run_app s evs evs' :
  run id s (evs ++ evs') = run id (run id s evs) evs'.
Proof. unfold run. apply foldl_app. Qed.

Lemma run_cons s ev evs :
  run id s (ev :: evs) = run id (step id s ev) evs.
Proof. reflexivity. Qed.

End RunFacts.

(** X11. While [update] is the tick listener and the cache is at most
    900000 ms old at each of them, any number of ticks sends no request
    and leaves the cache, its timestamp and the subscription as they
    are. *)
Theorem fresh_ticks_send_no_request :
  ∀ (id : string) (s : Poller.state) (cs : list Poller.Card) (t : Z)
    (ts : list Z),
    Poller.onSystemTick s = [Poller.h_update] →
    Poller.cards s = Some cs →
    Poller.lastUpdated s = Some t →
    Forall (λ now, (now - t ≤ 900000)%Z) ts →
    let s' := Poller.run id s (Poller.Tick <$> ts) in
    Poller.requests s' = Poller.requests s ∧
    Poller.pending s' = Poller.pending s ∧
    Poller.cards s' = Some cs ∧
    Poller.lastUpdated s' = Some t ∧
    Poller.onSystemTick s' = [Poller.h_update].
Proof.
  intros id s cs t ts Hact Hc Hl Hts. cbv zeta.
  revert s Hact Hc Hl.
  induction Hts as [| now ts Hnow _ IH]; intros s Hact Hc Hl; [done |].
  rewrite fmap_cons, run_cons, (step_tick_active id s now Hact).
  assert (Poller.needsFetch s now = false) as Hn.
  { apply needsFetch_false. exists cs. split; [done |].
    intros t' Ht'. rewrite Hl in Ht'. by injection Ht' as <-. }
  rewrite (update_cached id _ now s cs Hn Hc). simpl.
  by destruct (IH (Poller.publish id cs s) Hact Hc Hl)
    as (-> & -> & -> & -> & ->).
Qed.

Lemma fresh_ticks_send_no_request_witness :
  Poller.requests
    (Poller.run "ext" cached_state
       (Poller.Tick <$> [60000; 120000; 900000]%Z)) = 1%nat.
Proof.
  apply (fresh_ticks_send_no_request "ext" cached_state [sample_card] 0%Z
           [60000; 120000; 900000]%Z eq_refl eq_refl eq_refl).
  repeat constructor; lia.
Defined.

(** X12. [update] does not remember that a request is in flight: while
    the cache stays empty or stale and no response has arrived, every
    tick sends one more request. *)
Theorem stale_ticks_send_one_request_each :
  ∀ (id : string) (s : Poller.state) (ts : list Z),
    Poller.onSystemTick s = [Poller.h_update] →
    Forall (λ now, Poller.needsFetch s now = true) ts →
    let s' := Poller.run id s (Poller.Tick <$> ts) in
    Poller.requests s' = (Poller.requests s + length ts)%nat ∧
    Poller.pending s'
      = Poller.pending s ++ replicate (length ts) Poller.ByTick ∧
    Poller.cards s' = Poller.cards s ∧
    Poller.lastUpdated s' = Poller.lastUpdated s ∧
    Poller.host s' = Poller.host s.
Proof.
  intros id s ts Hact Hts. cbv zeta. revert s Hact Hts.
  induction ts as [| now ts IH]; intros s Hact Hts.
  - simpl. split_and!; rewrite ?app_nil_r; try done; lia.
  - apply Forall_cons in Hts as [Hnow Hts].
    rewrite fmap_cons, run_cons, (step_tick_active id s now Hact).
    rewrite (update_fetch id _ now s Hnow).
    set (s1 := Poller.mkState _ _ _ _ _ _).
    destruct (IH s1 Hact) as (Hr & Hp & Hc & Hl & Hh).
    { eapply Forall_impl; [exact Hts |]. intros now' H'. simpl in H'.
      by rewrite <- H'. }
    rewrite Hr, Hp, Hc, Hl, Hh. subst s1. simpl.
    split_and!; rewrite <- ?app_assoc; try done; lia.
Qed.

Lemma stale_ticks_send_one_request_each_witness :
  Poller.requests
    (Poller.run "ext"
       {| Poller.cards := None; Poller.lastUpdated := None;
          Poller.pending := []; Poller.requests := 0;
          Poller.onSystemTick := [Poller.h_update];
          Poller.host := registered_host |}
       (Poller.Tick <$> [1; 2; 3]%Z)) = 3%nat.
Proof.
  apply (stale_ticks_send_one_request_each "ext"
           {| Poller.cards := None; Poller.lastUpdated := None;
              Poller.pending := []; Poller.requests := 0;
              Poller.onSystemTick := [Poller.h_update];
              Poller.host := registered_host |} [1; 2; 3]%Z eq_refl).
  repeat constructor.
Defined.

(** X13. An [uninit] that arrives while the request sent by [init] is
    still in flight does not stop that [init]: when the response comes,
    [update] is added to the tick listeners although the last lifecycle
    event was the uninitialisation. *)
Theorem uninit_during_refresh_leaves_subscription :
  ∀ (id : string) (s : Poller.state) (now now' : Z)
    (results : list Poller.Result),
    Poller.needsFetch s now = true →
    let s' :=
      Poller.run id s
        [ Poller.Initialized now; Poller.Uninitialized;
          Poller.Load (length (Poller.pending s))
            (Poller.LoadEnvelope results) now' ] in
    Poller.h_update ∈ Poller.onSystemTick s' ∧
    Poller.cards s' = Some (Poller.cardsOfResults results).
Proof.
  intros id s now now' results Hn. cbv zeta.
  unfold Poller.run. simpl. unfold Poller.init.
  rewrite (update_fetch id _ now s Hn). unfold Poller.uninit. simpl.
  pose proof (load_last id Poller.ByInit (Poller.LoadEnvelope results) now'
                {| Poller.cards := Poller.cards s;
                   Poller.lastUpdated := Poller.lastUpdated s;
                   Poller.pending := Poller.pending s;
                   Poller.requests := S (Poller.requests s);
                   Poller.onSystemTick :=
                     EventManager.removeListener Poller.h_update
                       (Poller.onSystemTick s);
                   Poller.host := Poller.host s |}) as Hl.
  simpl in Hl. rewrite Hl. simpl. split; [| done].
  apply addListener_elem.
Qed.

Lemma uninit_during_refresh_leaves_subscription_witness :
  Poller.h_update ∈
  Poller.onSystemTick
    (Poller.run "ext" (Poller.start registered_host)
       [ Poller.Initialized 0; Poller.Uninitialized;
         Poller.Load 0 (Poller.LoadEnvelope []) 5 ]).
Proof.
  apply (uninit_during_refresh_leaves_subscription "ext"
           (Poller.start registered_host) 0 5 [] eq_refl).
Defined.

Lemma idle_ticks id s ts :
  Poller.onSystemTick s = [] → Poller.run id s (Poller.Tick <$> ts) = s.
Proof.
  intros Hidle. induction ts as [| now ts IH]; [done |].
  by rewrite fmap_cons, run_cons, (step_tick_idle id s now Hidle).
Qed.

(** X14. When the first refresh after loading fails, [init] never gets to
    [addListener]: the script is left with no cache and no tick listener,
    and ticks, however many come, change nothing and send no further
    request. *)
Theorem failed_first_refresh_stops_polling :
  ∀ (id : string) (h : SectionsManager.state) (r : Poller.Response)
    (t t' : Z) (ts : list Z),
    r = Poller.RequestFailed ∨ r = Poller.LoadMalformed →
    Poller.run id (Poller.start h)
      (Poller.Initialized t :: Poller.Load 0 r t' :: (Poller.Tick <$> ts))
    = {| Poller.cards := None; Poller.lastUpdated := None;
         Poller.pending := []; Poller.requests := 1;
         Poller.onSystemTick := []; Poller.host := h |}.
Proof.
  intros id h r t t' ts Hr. rewrite !run_cons.
  assert (Poller.step id (Poller.step id (Poller.start h)
                            (Poller.Initialized t)) (Poller.Load 0 r t')
          = {| Poller.cards := None; Poller.lastUpdated := None;
               Poller.pending := []; Poller.requests := 1;
               Poller.onSystemTick := []; Poller.host := h |}) as ->.
  { by destruct Hr as [-> | ->]. }
  by apply idle_ticks.
Qed.

Lemma failed_first_refresh_stops_polling_witness :
  Poller.requests
    (Poller.run "ext" (Poller.start registered_host)
       (Poller.Initialized 0 :: Poller.Load 0 Poller.RequestFailed 9
          :: (Poller.Tick <$> [60000; 120000]%Z))) = 1%nat.
Proof.
  rewrite (failed_first_refresh_stops_polling "ext" registered_host
             Poller.RequestFailed 0 9 [60000; 120000]%Z (or_introl eq_refl)).
  reflexivity.
Defined.

(** X15. A response whose [results] is empty is a cache like any other:
    the cached list becomes the empty list, which is not "no list", so
    no new request is sent for the next 900000 ms. *)
Theorem empty_results_are_cached :
  ∀ (id : string) (s : Poller.state) (k : nat) (t : Z),
    is_Some (Poller.pending s !! k) →
    let s' := Poller.step id s (Poller.Load k (Poller.LoadEnvelope []) t) in
    Poller.cards s' = Some [] ∧
    Poller.lastUpdated s' = Some t ∧
    ∀ now, Poller.needsFetch s' now = true ↔ (now - t > 900000)%Z.
Proof.
  intros id s k t [c Hc]. cbv zeta. simpl. unfold Poller.load.
  rewrite Hc. simpl.
  set (s0 := Poller.mkState _ _ _ _ _ _).
  destruct (resume_fields id c [] t s0) as (Hcards & Hlast & _).
  change (Poller.cardsOfResults []) with (@nil Poller.Card).
  split_and!; [done | done |].
  intros now. unfold Poller.needsFetch. rewrite Hcards, Hlast.
  unfold Poller.UPDATE_INTERVAL. rewrite Z.gtb_gt. lia.
Qed.

Lemma empty_results_are_cached_witness :
  Poller.cards
    (Poller.step "ext"
       (Poller.step "ext" (Poller.start registered_host)
          (Poller.Initialized 0))
       (Poller.Load 0 (Poller.LoadEnvelope []) 5)) = Some [].
Proof.
  apply (empty_results_are_cached "ext"
           (Poller.step "ext" (Poller.start registered_host)
              (Poller.Initialized 0)) 0 5).
  eexists. reflexivity.
Defined.

(** ** What the poller does to the registry *)

Section RegistryFacts.

Import Poller.

Variable id : string.

Lemma onlyPublished_refl h : onlyPublished id h h.
Proof.
  unfold onlyPublished. split_and!; try done.
  exists []. split; [by rewrite app_nil_r | constructor].
Qed.

Lemma onlyPublished_trans h1 h2 h3 :
  onlyPublished id h1 h2 → onlyPublished id h2 h3 → onlyPublished id h1 h3.
Proof.
  intros (Hi & Hq & Hh & Ho & Hk & l & Hl & Hf)
         (Hi' & Hq' & Hh' & Ho' & Hk' & l' & Hl' & Hf').
  unfold onlyPublished. split_and!; try congruence.
  - intros other Hne. rewrite Ho', Ho; done.
  - intros k Hne. rewrite Hk', Hk; done.
  - exists (l ++ l'). split; [by rewrite Hl', Hl, app_assoc |].
    by apply Forall_app.
Qed.

Lemma onlyPublished_addCards cs h :
  onlyPublished id h (Bridge.addCards id (jsOfCards cs) (Some true) h).
Proof.
  unfold Bridge.addCards, SectionsManager.has,
    SectionsManager.updateSection.
  destruct (SectionsManager.sections h !! id) as [sec |] eqn:Hsec;
    [| apply onlyPublished_refl].
  unfold onlyPublished, SectionsManager.has, SectionsManager.get. simpl.
  rewrite lookup_insert_eq, Hsec. simpl. split_and!; try done.
  - intros other Hne. by rewrite lookup_insert_ne.
  - intros k Hne. unfold getProp. rewrite lookup_Object_assign.
    by rewrite lookup_singleton_ne.
  - eexists. split; [reflexivity |]. constructor; [| constructor].
    by exists cs.
Qed.

Lemma onlyPublished_afterUpdate c s h :
  onlyPublished id h (host s) → onlyPublished id h (host (afterUpdate c s)).
Proof. by destruct c. Qed.

Lemma onlyPublished_update c now s :
  onlyPublished id (host s) (host (update id c now s)).
Proof.
  unfold update. destruct (needsFetch s now); [apply onlyPublished_refl |].
  destruct (cards s) as [cs |]; apply onlyPublished_afterUpdate;
    [apply onlyPublished_addCards | apply onlyPublished_refl].
Qed.

Lemma onlyPublished_load k r now s :
  onlyPublished id (host s) (host (load id k r now s)).
Proof.
  unfold load. destruct (pending s !! k) as [c |]; [| apply onlyPublished_refl].
  destruct (getCards r) as [cs |]; [| apply onlyPublished_refl].
  unfold resume. apply onlyPublished_afterUpdate. simpl.
  apply onlyPublished_addCards.
Qed.

Lemma onlyPublished_runHandler now s h :
  onlyPublished id (host s) (host (runHandler id now s h)).
Proof.
  destruct h; simpl;
    [apply onlyPublished_update | apply onlyPublished_update
     | apply onlyPublished_refl].
Qed.

Lemma onlyPublished_step s ev :
  onlyPublished id (host s) (host (step id s ev)).
Proof.
  destruct ev as [now | | now | k r now]; simpl.
  - apply onlyPublished_update.
  - apply onlyPublished_refl.
  - generalize (onSystemTick s). intros hs. revert s.
    induction hs as [| h hs IH]; intros s; simpl;
      [apply onlyPublished_refl |].
    eapply onlyPublished_trans; [apply onlyPublished_runHandler | apply IH].
  - apply onlyPublished_load.
Qed.

Lemma onlyPublished_run s evs :
  onlyPublished id (host s) (host (run id s evs)).
Proof.
  revert s. induction evs as [| ev evs IH]; intros s;
    [apply onlyPublished_refl |].
  rewrite run_cons.
  eapply onlyPublished_trans; [apply onlyPublished_step | apply IH].
Qed.

End RegistryFacts.

(** X16. Whatever events it receives, the script reaches the registry
    through [addCards(cards, true)] only: the registry's initialisation
    flag and waiting callbacks, the sections of other extensions, whether
    its own section is registered, and every property of its own section
    other than [rows] stay as they were, and every call it adds to the
    registry sets [rows] to a card list with broadcast [true]. *)
Theorem poller_only_publishes_rows :
  ∀ (id : string) (s : Poller.state) (evs : list Poller.Event),
    onlyPublished id (Poller.host s) (Poller.host (Poller.run id s evs)).
Proof. intros id s evs. apply onlyPublished_run. Qed.

Lemma poller_only_publishes_rows_witness :
  SectionsManager.initialized
    (Poller.host
       (Poller.run "ext" (Poller.start registered_host)
          [ Poller.Initialized 0;
            Poller.Load 0 (Poller.LoadEnvelope []) 5;
            Poller.Tick 60000 ])) = true.
Proof.
  apply (poller_only_publishes_rows "ext" (Poller.start registered_host)
           [ Poller.Initialized 0;
             Poller.Load 0 (Poller.LoadEnvelope []) 5;
             Poller.Tick 60000 ]).
Defined.

(** ** The cache *)

Section CacheFacts.

Import Poller.

Variable id : string.

Lemma getCards_shape r cs :
  getCards r = Some cs →
  (length cs ≤ 20)%nat ∧ Forall (λ c, hostname c = "nytimes") cs.
Proof.
  destruct r as [| | results]; try done. intros [= <-].
  unfold cardsOfResults. split.
  - rewrite length_fmap, length_take. lia.
  - apply Forall_fmap, Forall_forall. by intros r _.
Qed.

Lemma cacheInv_ext s s' :
  cards s' = cards s → lastUpdated s' = lastUpdated s →
  cacheInv s → cacheInv s'.
Proof. unfold cacheInv. by intros -> ->. Qed.

Lemma cacheInv_update c now s : cacheInv s → cacheInv (update id c now s).
Proof.
  intros Hi. unfold update. destruct (needsFetch s now).
  - by apply (cacheInv_ext s).
  - destruct (cards s) as [cs |] eqn:Hc;
      destruct (afterUpdate_fields c (publish id cs s)) as (H1 & H2 & _)
      || destruct (afterUpdate_fields c s) as (H1 & H2 & _);
      apply (cacheInv_ext s); try done; congruence.
Qed.

Lemma cacheInv_load k r now s : cacheInv s → cacheInv (load id k r now s).
Proof.
  intros Hi. unfold load. destruct (pending s !! k) as [c |]; [| done].
  destruct (getCards r) as [cs |] eqn:Hr; [| by apply (cacheInv_ext s)].
  set (s0 := mkState _ _ _ _ _ _).
  destruct (resume_fields id c cs now s0) as (Hc & Hl & _).
  unfold cacheInv. rewrite Hc, Hl.
  destruct (getCards_shape r cs Hr). by split_and!.
Qed.

Lemma cacheInv_runHandler now s h :
  cacheInv s → cacheInv (runHandler id now s h).
Proof.
  destruct h; simpl;
    [apply cacheInv_update | apply cacheInv_update |].
  by apply cacheInv_ext.
Qed.

Lemma cacheInv_step s ev : cacheInv s → cacheInv (step id s ev).
Proof.
  intros Hi. destruct ev as [now | | now | k r now]; simpl.
  - by apply cacheInv_update.
  - by apply (cacheInv_ext s).
  - generalize (onSystemTick s). intros hs. revert s Hi.
    induction hs as [| h hs IH]; intros s Hi; simpl; [done |].
    apply IH. by apply cacheInv_runHandler.
  - by apply cacheInv_load.
Qed.

Lemma addCards_rows cards b h :
  SectionsManager.has id h = true →
  getProp (SectionsManager.get id (Bridge.addCards id cards b h)) "rows"
  = cards.
Proof.
  intros Hh. unfold Bridge.addCards. rewrite Hh.
  unfold SectionsManager.has in Hh.
  unfold SectionsManager.updateSection, SectionsManager.get.
  destruct (SectionsManager.sections h !! id) as [sec |]; [| done].
  simpl. rewrite lookup_insert_eq. simpl. unfold getProp.
  rewrite lookup_Object_assign. by rewrite lookup_singleton_eq.
Qed.

Lemma has_addCards cards b h :
  SectionsManager.has id (Bridge.addCards id cards b h)
  = SectionsManager.has id h.
Proof.
  unfold Bridge.addCards.
  destruct (SectionsManager.has id h) eqn:Hh; [| done].
  unfold SectionsManager.has in *.
  unfold SectionsManager.updateSection.
  destruct (SectionsManager.sections h !! id) as [sec |]; [| done].
  simpl. by rewrite lookup_insert_eq.
Qed.

Lemma rowsInv_publish cs s :
  cards s = Some cs → rowsInv id (publish id cs s).
Proof.
  intros Hc Hh cs' Hc'. simpl in *. rewrite has_addCards in Hh.
  rewrite Hc in Hc'. injection Hc' as <-. by apply addCards_rows.
Qed.

Lemma rowsInv_afterUpdate c s : rowsInv id s → rowsInv id (afterUpdate c s).
Proof. by destruct c. Qed.

Lemma rowsInv_update c now s : rowsInv id s → rowsInv id (update id c now s).
Proof.
  intros Hi. unfold update. destruct (needsFetch s now); [done |].
  destruct (cards s) as [cs |] eqn:Hc; apply rowsInv_afterUpdate; [| done].
  by apply rowsInv_publish.
Qed.

Lemma rowsInv_load k r now s : rowsInv id s → rowsInv id (load id k r now s).
Proof.
  intros Hi. unfold load. destruct (pending s !! k) as [c |]; [| done].
  destruct (getCards r) as [cs |]; [| done].
  unfold resume. apply rowsInv_afterUpdate.
  intros Hh cs' Hc'. simpl in *. rewrite has_addCards in Hh.
  injection Hc' as <-. by apply addCards_rows.
Qed.

Lemma rowsInv_step s ev : rowsInv id s → rowsInv id (step id s ev).
Proof.
  intros Hi. destruct ev as [now | | now | k r now]; simpl.
  - by apply rowsInv_update.
  - done.
  - generalize (onSystemTick s). intros hs. revert s Hi.
    induction hs as [| h hs IH]; intros s Hi; simpl; [done |].
    apply IH. destruct h; simpl; [| | done]; by apply rowsInv_update.
  - by apply rowsInv_load.
Qed.

Lemma cacheInv_run s evs : cacheInv s → cacheInv (run id s evs).
Proof.
  revert s. induction evs as [| ev evs IH]; intros s Hs; [done |].
  rewrite run_cons. apply IH. by apply cacheInv_step.
Qed.

Lemma rowsInv_run s evs : rowsInv id s → rowsInv id (run id s evs).
Proof.
  revert s. induction evs as [| ev evs IH]; intros s Hs; [done |].
  rewrite run_cons. apply IH. by apply rowsInv_step.
Qed.

End CacheFacts.

(** X17. From the moment the script is loaded, whatever events follow,
    the cache and its timestamp are set together, and a cached list never
    has more than 20 cards nor a card whose hostname is not ["nytimes"]. *)
Theorem cache_shape_invariant :
  ∀ (id : string) (h : SectionsManager.state) (evs : list Poller.Event),
    match Poller.cards (Poller.run id (Poller.start h) evs) with
    | Some cs =>
        is_Some (Poller.lastUpdated (Poller.run id (Poller.start h) evs)) ∧
        (length cs ≤ 20)%nat ∧
        Forall (λ c, Poller.hostname c = "nytimes") cs
    | None =>
        Poller.lastUpdated (Poller.run id (Poller.start h) evs) = None
    end.
Proof.
  intros id h evs. change (cacheInv (Poller.run id (Poller.start h) evs)).
  by apply cacheInv_run.
Qed.

(** X18. When the section is registered in the registry the script
    starts with, then after any events, as soon as there is a cached
    list, the rows of the section are that list: the registry never
    shows cards other than the cached ones. *)
Theorem rows_follow_cache :
  ∀ (id : string) (h : SectionsManager.state) (evs : list Poller.Event)
    (cs : list Poller.Card),
    SectionsManager.has id h = true →
    Poller.cards (Poller.run id (Poller.start h) evs) = Some cs →
    getProp
      (SectionsManager.get id
         (Poller.host (Poller.run id (Poller.start h) evs))) "rows"
    = Poller.jsOfCards cs.
Proof.
  intros id h evs cs Hh Hc.
  assert (rowsInv id (Poller.run id (Poller.start h) evs)) as Hinv.
  { apply rowsInv_run. by intros _ cs' [=]. }
  apply Hinv; [| done].
  destruct (onlyPublished_run id (Poller.start h) evs) as (_ & _ & Hhas & _).
  by rewrite Hhas.
Qed.

Lemma rows_follow_cache_witness :
  getProp
    (SectionsManager.get "ext"
       (Poller.host
          (Poller.run "ext" (Poller.start registered_host)
             [ Poller.Initialized 0;
               Poller.Load 0
                 (Poller.LoadEnvelope
                    [ Poller.mkResult "abstract" "title" "https://nyti.ms/a"
                        [] ]) 5 ]))) "rows"
  = Poller.jsOfCards [sample_card].
Proof.
  apply (rows_follow_cache "ext" registered_host
           [ Poller.Initialized 0;
             Poller.Load 0
               (Poller.LoadEnvelope
                  [ Poller.mkResult "abstract" "title" "https://nyti.ms/a"
                      [] ]) 5 ] [sample_card]).
  - reflexivity.
  - reflexivity.
Defined.

(** ** [onInitialized] on re-initialisation and after removal *)

(** X19. An [INIT] event of the registry makes every registered listener
    of [onInitialized] fire once when the section is registered and
    enabled at that moment, and makes none fire when it is not; and a
    listener that was removed is not fired by any later event. *)
Theorem onInitialized_init_and_removal :
  ∀ (id : string) (cb : nat) (sm : SectionsManager.state)
    (e : Bridge.subscriptions),
    NoDup (Bridge.listeners e) →
    (cb ∈ Bridge.listeners e →
       fireCount cb (Bridge.onInitialized_emit id SectionsManager.INIT sm e)
       = if SectionsManager.has id sm
            && truthy (getProp (SectionsManager.get id sm) "enabled")
         then S (fireCount cb e) else fireCount cb e) ∧
    (∀ ev,
       fireCount cb
         (Bridge.onInitialized_emit id ev sm
            (Bridge.onInitialized_removeListener cb e))
       = fireCount cb e).
Proof.
  intros id cb sm e Hnd. split.
  - intros Hcb. rewrite emit_init. unfold Bridge.initListener.
    destruct (SectionsManager.has id sm && _); [| done].
    unfold fireCount. simpl.
    rewrite filter_app, length_app, (count_NoDup_elem cb _ Hnd Hcb). lia.
  - intros ev. unfold fireCount.
    set (e0 := Bridge.onInitialized_removeListener cb e).
    assert (∀ ls e1,
              cb ∉ ls →
              filter (λ x, x = cb)
                (Bridge.fired
                   (foldl (λ e' c, Bridge.onInitialized_react id ev sm c e')
                      e1 ls))
              = filter (λ x, x = cb) (Bridge.fired e1)) as Hfold.
    { induction ls as [| c ls IH]; intros e1 Hn; [done |].
      apply not_elem_of_cons in Hn as [Hne Hn]. simpl. rewrite (IH _ Hn).
      destruct ev; simpl; try done.
      - destruct (Bridge.initListener id sm); [| done]. simpl.
        rewrite filter_app, filter_cons. case_decide; [by subst |].
        by rewrite filter_nil, app_nil_r.
      - destruct (Bridge.enabledListener id _); [| done]. simpl.
        rewrite filter_app, filter_cons. case_decide; [by subst |].
        by rewrite filter_nil, app_nil_r. }
    unfold Bridge.onInitialized_emit. rewrite Hfold; [done |].
    subst e0. simpl. apply removeListener_not_elem.
Qed.

Lemma onInitialized_init_and_removal_witness :
  fireCount 7%nat
    (Bridge.onInitialized_emit "ext" SectionsManager.INIT registered_host
       {| Bridge.listeners := [7%nat]; Bridge.fired := [] |}) = 1%nat.
Proof.
  destruct (onInitialized_init_and_removal "ext" 7%nat registered_host
              {| Bridge.listeners := [7%nat]; Bridge.fired := [] |}
              (NoDup_singleton 7%nat)) as [Hinit _].
  apply Hinit. apply list_elem_of_singleton. reflexivity.
Defined.

(** * [onInitialized] across the registry's initialisation *)

Section SessionFacts.

Import SectionsManager.
Import Bridge.

Variable id : string.





End SessionFacts.



